(** * BitVM rollup framework: hash-chain commitments, block store, watcher

    A shallow embedding of the three programs of the repository
    ([BitVM.py], [PSBTgen.py], [PSBTlib.py]) and the properties of their
    specification that can be settled on it.

    Conventions.
    - Python [bytes] are [list byte]; Python [str] is [string] (the values
      the code handles are ASCII: hex digests, file-name parts, script text).
    - [hashlib.sha256] is the FIPS 180-4 function, written out over [Z] with
      the 32-bit wrap-around explicit.
    - A Python call that may raise returns a [result]; the exception is named.
    - A name that the module reads without binding it is bound to [None];
      reading it raises [NameError] or [UnboundLocalError].
    - The store directory [rollup_block_db] is a finite map from the part of
      a file name that the pattern [rollup_block_*.json] matches to the JSON
      value held by the file.
    - A command line handed to the shell is recorded in the state as the
      text the code built; what the shell then does is not part of the
      embedding: the store is what the builder itself has written. *)

From Stdlib Require Import ZArith List String Ascii Lia Floats.
From Stdlib.Strings Require Import Byte.
From stdpp Require Import gmap strings list pretty sorting.

Set Warnings "-inexact-float".
Local Open Scope Z_scope.

(** ** Exceptions *)

Inductive py_exception : Type :=
| ValueError
| IndexError
| OverflowError
| NameError (name : string)
| UnboundLocalError (name : string)
| FileNotFoundError
| CalledProcessError
| RPCError.

Inductive result (A : Type) : Type :=
| Ok (a : A)
| Raise (e : py_exception).
Arguments Ok {A} a.
Arguments Raise {A} e.

Definition bind {A B} (r : result A) (k : A -> result B) : result B :=
  match r with
  | Ok a => k a
  | Raise e => Raise e
  end.

Notation "'do' x <- r ; k" := (bind r (fun x => k))
  (at level 10, x name, r at level 100, k at level 200).

(** ** Bytes *)

Definition Z_of_byte (b : byte) : Z := Z.of_N (Byte.to_N b).

Definition byte_of_Z (z : Z) : byte :=
  match Byte.of_N (Z.to_N (z mod 256)) with
  | Some b => b
  | None => x00
  end.

(** [str.encode()] and its inverse on ASCII text. *)
Definition encode (s : string) : list byte := list_byte_of_string s.

(** ** SHA-256 (FIPS 180-4), the function behind [hashlib.sha256] *)

Module SHA256.

Definition w32 (x : Z) : Z := x mod 2 ^ 32.
Definition add32 (x y : Z) : Z := w32 (x + y).
Definition rotr (n x : Z) : Z :=
  Z.lor (Z.shiftr x n) (w32 (Z.shiftl x (32 - n))).
Definition shr (n x : Z) : Z := Z.shiftr x n.
Definition not32 (x : Z) : Z := 2 ^ 32 - 1 - x.

Definition Ch (x y z : Z) : Z :=
  Z.lxor (Z.land x y) (Z.land (not32 x) z).
Definition Maj (x y z : Z) : Z :=
  Z.lxor (Z.lxor (Z.land x y) (Z.land x z)) (Z.land y z).
Definition bsig0 (x : Z) : Z := Z.lxor (Z.lxor (rotr 2 x) (rotr 13 x)) (rotr 22 x).
Definition bsig1 (x : Z) : Z := Z.lxor (Z.lxor (rotr 6 x) (rotr 11 x)) (rotr 25 x).
Definition ssig0 (x : Z) : Z := Z.lxor (Z.lxor (rotr 7 x) (rotr 18 x)) (shr 3 x).
Definition ssig1 (x : Z) : Z := Z.lxor (Z.lxor (rotr 17 x) (rotr 19 x)) (shr 10 x).

(** The round constants are the first 32 bits of the fractional parts of
    the cube roots of the first 64 primes, the initial state those of the
    square roots of the first 8; both tables are computed from that
    definition. *)
Definition primes64 : list Z :=
  [2; 3; 5; 7; 11; 13; 17; 19; 23; 29; 31; 37; 41; 43; 47; 53;
   59; 61; 67; 71; 73; 79; 83; 89; 97; 101; 103; 107; 109; 113; 127; 131;
   137; 139; 149; 151; 157; 163; 167; 173; 179; 181; 191; 193; 197; 199;
   211; 223; 227; 229; 233; 239; 241; 251; 257; 263; 269; 271; 277; 281;
   283; 293; 307; 311].

(** Integer cube root by bisection on the bits [k-1 .. 0]. *)
Fixpoint cbrt_bits (k : nat) (acc n : Z) : Z :=
  match k with
  | O => acc
  | S k' =>
      let c := acc + 2 ^ Z.of_nat k' in
      cbrt_bits k' (if c * c * c <=? n then c else acc) n
  end.

Definition frac_cbrt32 (p : Z) : Z := w32 (cbrt_bits 36 0 (p * 2 ^ 96)).
Definition frac_sqrt32 (p : Z) : Z := w32 (Z.sqrt (p * 2 ^ 64)).

Definition K : list Z := Eval vm_compute in List.map frac_cbrt32 primes64.
Definition H0 : list Z := Eval vm_compute in List.map frac_sqrt32 (firstn 8 primes64).

(** Padding: the byte 0x80, zero bytes up to 56 modulo 64, then the bit
    length as 8 big-endian bytes. *)
Definition be_bytes (n : nat) (x : Z) : list Z :=
  List.map (fun i => Z.shiftr x (8 * Z.of_nat i) mod 256) (rev (seq 0 n)).

Definition pad (msg : list Z) : list Z :=
  let len := Z.of_nat (List.length msg) in
  msg ++ [128] ++ repeat 0 (Z.to_nat ((55 - len) mod 64)) ++ be_bytes 8 (8 * len).

Definition be_word (bs : list Z) : Z :=
  fold_left (fun acc b => acc * 256 + b) bs 0.

Fixpoint group (n fuel : nat) (l : list Z) : list (list Z) :=
  match fuel, l with
  | O, _ | _, [] => []
  | S fuel', _ => firstn n l :: group n fuel' (skipn n l)
  end.

Definition words_of (bs : list Z) : list Z :=
  List.map be_word (group 4 (List.length bs) bs).

(** The message schedule, most recent word first. *)
Fixpoint schedule (k : nat) (ws : list Z) : list Z :=
  match k with
  | O => ws
  | S k' =>
      let w := add32 (add32 (ssig1 (nth 1 ws 0)) (nth 6 ws 0))
                     (add32 (ssig0 (nth 14 ws 0)) (nth 15 ws 0)) in
      schedule k' (w :: ws)
  end.

Record state : Type := State
  { sa : Z; sb : Z; sc : Z; sd : Z; se : Z; sf : Z; sg : Z; sh : Z }.

Definition round (s : state) (kw : Z * Z) : state :=
  let '(k, w) := kw in
  let t1 := add32 (add32 (add32 (sh s) (bsig1 (se s)))
                         (add32 (Ch (se s) (sf s) (sg s)) k)) w in
  let t2 := add32 (bsig0 (sa s)) (Maj (sa s) (sb s) (sc s)) in
  State (add32 t1 t2) (sa s) (sb s) (sc s) (add32 (sd s) t1) (se s) (sf s) (sg s).

Definition compress (s : state) (block : list Z) : state :=
  let ws := rev (schedule 48 (rev (words_of block))) in
  let r := fold_left round (combine K ws) s in
  State (add32 (sa s) (sa r)) (add32 (sb s) (sb r)) (add32 (sc s) (sc r))
        (add32 (sd s) (sd r)) (add32 (se s) (se r)) (add32 (sf s) (sf r))
        (add32 (sg s) (sg r)) (add32 (sh s) (sh r)).

Definition init : state :=
  State (nth 0 H0 0) (nth 1 H0 0) (nth 2 H0 0) (nth 3 H0 0)
        (nth 4 H0 0) (nth 5 H0 0) (nth 6 H0 0) (nth 7 H0 0).

Definition word_bytes (x : Z) : list byte :=
  [byte_of_Z (Z.shiftr x 24); byte_of_Z (Z.shiftr x 16);
   byte_of_Z (Z.shiftr x 8); byte_of_Z x].

Definition digest_of (s : state) : list byte :=
  word_bytes (sa s) ++ word_bytes (sb s) ++ word_bytes (sc s) ++ word_bytes (sd s)
  ++ word_bytes (se s) ++ word_bytes (sf s) ++ word_bytes (sg s) ++ word_bytes (sh s).

(** [sha256(msg).digest()] *)
Definition digest (msg : list byte) : list byte :=
  let padded := pad (List.map Z_of_byte msg) in
  digest_of (fold_left compress (group 64 (List.length padded) padded) init).

End SHA256.

Definition sha256 (msg : list byte) : list byte := SHA256.digest msg.
Arguments sha256 : simpl never.

(** ** Hexadecimal text: [bytes.hex()], [hexdigest()], [bytes.fromhex] *)

Definition hex_digit (n : Z) : ascii :=
  ascii_of_N (Z.to_N (if n <? 10 then 48 + n else 87 + n)).

Definition hex_byte (b : byte) : string :=
  let n := Z_of_byte b in
  String (hex_digit (n / 16)) (String (hex_digit (n mod 16)) EmptyString).

(** [bs.hex()]: two lower-case digits per byte. *)
Fixpoint hex (bs : list byte) : string :=
  match bs with
  | [] => EmptyString
  | b :: bs' => hex_byte b +:+ hex bs'
  end.

(** [sha256(msg).hexdigest()] *)
Definition hexdigest (msg : list byte) : string := hex (sha256 msg).
Arguments hexdigest : simpl never.

(** The value of a hexadecimal digit, either case; [None] for any other
    character. *)
Definition hex_value (c : ascii) : option Z :=
  let n := Z.of_N (N_of_ascii c) in
  if (48 <=? n) && (n <=? 57) then Some (n - 48)
  else if (97 <=? n) && (n <=? 102) then Some (n - 87)
  else if (65 <=? n) && (n <=? 70) then Some (n - 55)
  else None.

(** ASCII white space, which [bytes.fromhex] skips in front of a byte. *)
Definition py_isspace (c : ascii) : bool :=
  let n := Z.of_N (N_of_ascii c) in
  (n =? 32) || ((9 <=? n) && (n <=? 13)).

(** [bytes.fromhex(s)]; [None] stands for its [ValueError]. White space is
    skipped before a pair of digits, never between the two digits. *)
Fixpoint fromhex (s : string) : option (list byte) :=
  match s with
  | EmptyString => Some []
  | String c s1 =>
      if py_isspace c then fromhex s1
      else
        match hex_value c, s1 with
        | Some hi, String d s2 =>
            match hex_value d with
            | Some lo =>
                match fromhex s2 with
                | Some bs => Some (byte_of_Z (16 * hi + lo) :: bs)
                | None => None
                end
            | None => None
            end
        | _, _ => None
        end
  end.

(** ** Python text helpers *)

(** [s[:n]] *)
Fixpoint str_take (n : nat) (s : string) : string :=
  match n, s with
  | S n', String c s' => String c (str_take n' s')
  | _, _ => EmptyString
  end.

(** [s.startswith(p)] *)
Fixpoint startswith (p s : string) : bool :=
  match p, s with
  | EmptyString, _ => true
  | String a p', String b s' => Ascii.eqb a b && startswith p' s'
  | String _ _, EmptyString => false
  end.

(** [needle in hay] on text. *)
Fixpoint str_in (needle hay : string) : bool :=
  startswith needle hay ||
  match hay with
  | EmptyString => false
  | String _ hay' => str_in needle hay'
  end.

(** [sep.join(parts)] *)
Fixpoint join (sep : string) (parts : list string) : string :=
  match parts with
  | [] => EmptyString
  | [p] => p
  | p :: rest => p +:+ sep +:+ join sep rest
  end.

(** [a or b] on an optional text: [None] and the empty text are falsy. *)
Definition str_or (a : option string) (b : string) : string :=
  match a with
  | Some s => if String.eqb s "" then b else s
  | None => b
  end.

(** Truth value of [d.get(key)] for a JSON boolean that may be absent. *)
Definition truthy (v : option bool) : bool :=
  match v with
  | Some true => true
  | _ => false
  end.

(** [s.split(sep)] for a separator of one character: the text between
    the occurrences of [sep], so one part more than there are occurrences. *)
Fixpoint py_split (sep : ascii) (s : string) : list string :=
  match s with
  | EmptyString => [EmptyString]
  | String c s' =>
      if Ascii.eqb c sep then EmptyString :: py_split sep s'
      else
        match py_split sep s' with
        | part :: parts => String c part :: parts
        | [] => [String c EmptyString]
        end
  end.

(** ** Binary64 numbers: [int(x)] *)

(** [int(x)] truncates toward zero; it raises on a NaN or an infinity. *)
Definition py_int (x : float) : result Z :=
  match Prim2SF x with
  | S754_zero _ => Ok 0
  | S754_finite s m e =>
      let a := if 0 <=? e then Z.pos m * 2 ^ e else Z.pos m / 2 ^ (- e) in
      Ok (if s then - a else a)
  | S754_infinity _ => Raise OverflowError
  | S754_nan => Raise ValueError
  end.


(** ** Scripts and transactions (the parts of python-bitcointx the code builds) *)

(** The two key pairs of [PSBTgen.py]; a public key is named by its owner. *)
Inductive party : Type := Operator | Challenger.

Inductive opcode : Type :=
| OP_CHECKSIG | OP_CHECKSIGVERIFY | OP_CHECKSEQUENCEVERIFY | OP_EQUAL | OP_RETURN
| OP_IF | OP_ELSE | OP_ENDIF | OP_SHA256.

Inductive script_item : Type :=
| Key (p : party)
| RawKey (k : list byte)
| Data (d : list byte)
| Num (n : Z)
| Op (o : opcode).

Definition CScript : Type := list script_item.

(** A script-pubkey is either a literal script or the pay-to-taproot script
    of an output key made from an internal key and a list of leaves. *)
Inductive script_pubkey : Type :=
| Literal (s : CScript)
| P2TR (internal : party) (leaves : list CScript).

Record COutPoint : Type := { op_hash : list byte; op_n : Z }.
Record CTxIn : Type := { prevout : COutPoint; nSequence : Z }.
Record CTxOut : Type := { nValue : Z; scriptPubKey : script_pubkey }.
Record CTransaction : Type := { vin : list CTxIn; vout : list CTxOut }.

(** [binascii.unhexlify]: pairs of digits only. *)
Fixpoint unhexlify (s : string) : option (list byte) :=
  match s with
  | EmptyString => Some []
  | String c (String d s') =>
      match hex_value c, hex_value d, unhexlify s' with
      | Some hi, Some lo, Some bs => Some (byte_of_Z (16 * hi + lo) :: bs)
      | _, _, _ => None
      end
  | String _ EmptyString => None
  end.

(** [lx(h)]: the bytes of a hex text, reversed. *)
Definition lx (h : string) : result (list byte) :=
  match unhexlify h with
  | Some bs => Ok (rev bs)
  | None => Raise ValueError
  end.

(** [COutPoint(hash, n)] accepts a 32-byte hash and an index of 32 bits. *)
Definition mkCOutPoint (hash : list byte) (n : Z) : result COutPoint :=
  if (List.length hash =? 32)%nat && (0 <=? n) && (n <=? 4294967295)
  then Ok {| op_hash := hash; op_n := n |}
  else Raise ValueError.

(** [CTxIn(prevout, nSequence=n)] accepts a sequence number of 32 bits. *)
Definition mkCTxIn (prevout : COutPoint) (nSequence : Z) : result CTxIn :=
  if (0 <=? nSequence) && (nSequence <=? 4294967295)
  then Ok {| prevout := prevout; nSequence := nSequence |}
  else Raise ValueError.

(** ** PSBTgen.py *)

Module PSBTgen.

(** The loop of [BitVM.step_chain]: [chain.append(sha256(chain[-1]).digest())]. *)
Fixpoint step_chain_loop (steps : nat) (chain : list (list byte)) : list (list byte) :=
  match steps with
  | O => chain
  | S n => step_chain_loop n (chain ++ [sha256 (List.last chain [])])
  end.

(** [BitVM.step_chain(seed, steps)]: the chain is returned reversed
    ([chain[::-1]]), last hash first and seed last. *)
Definition step_chain (seed : list byte) (steps : Z) : list (list byte) :=
  rev (step_chain_loop (Z.to_nat steps) [seed]).

Definition chain : list (list byte) := step_chain (encode "init") 3.
Definition timeouts : list Z := [80; 160; 240].

(** What the name [OP_1] is bound to in the module. Line 3 imports the
    opcodes the file uses except this one, and nothing else binds it. *)
Definition OP_1_binding : option opcode := None.

(** The body of the loop for step [i] (lines 35-47). The three items are
    looked up first (lines 35-37; line 38 binds [next_data], which nothing
    reads, from an item line 36 has found); the list handed to [CScript]
    is then evaluated from the left, and reading a name that is not bound
    raises [NameError]. [op_1] is the binding of [OP_1]. *)
Definition step_script (op_1 : option opcode)
    (chain : list (list byte)) (timeouts : list Z) (i : nat)
  : result CScript :=
  match chain !! S i with
  | None => Raise IndexError
  | Some current_data =>
      match chain !! i with
      | None => Raise IndexError
      | Some expected_hash =>
          match timeouts !! i with
          | None => Raise IndexError
          | Some timeout =>
              match op_1 with
              | None => Raise (NameError "OP_1")
              | Some op_1 =>
                  Ok [Key Challenger; Op OP_CHECKSIGVERIFY;
                      Data current_data; Op OP_SHA256; Data expected_hash;
                      Op OP_EQUAL; Op OP_IF;
                        Op op_1;
                      Op OP_ELSE;
                        Num timeout; Op OP_CHECKSEQUENCEVERIFY;
                        Key Operator; Op OP_CHECKSIGVERIFY;
                      Op OP_ENDIF]
              end
          end
      end
  end.

(** [for i in range(len(chain) - 1): ... scripts.append(...)]: the first
    step that raises ends the loop. *)
Fixpoint scripts_loop (op_1 : option opcode)
    (chain : list (list byte)) (timeouts : list Z) (indices : list nat)
  : result (list CScript) :=
  match indices with
  | [] => Ok []
  | i :: indices' =>
      do s <- step_script op_1 chain timeouts i;
      do rest <- scripts_loop op_1 chain timeouts indices';
      Ok (s :: rest)
  end.

(** The loop of lines 34-48 as the module runs it. *)
Definition scripts_of (chain : list (list byte)) (timeouts : list Z) : result (list CScript) :=
  scripts_loop OP_1_binding chain timeouts (seq 0 (List.length chain - 1)).

Definition leaf_op : CScript :=
  [Key Operator; Op OP_CHECKSIGVERIFY; Num 300; Op OP_CHECKSEQUENCEVERIFY].

(** [TaprootScriptTree([leaf_op] + scripts)]: the leaves of the tree. *)
Definition tree_of (scripts : list CScript) : list CScript := leaf_op :: scripts.

(** [scripts = []] of line 32. The loop of lines 34-48 stops in its first
    step on the chain and the timeouts of the module and appends nothing. *)
Definition scripts : list CScript := [].

(** [[leaf_op] + scripts], the leaves line 54 hands to
    [TaprootScriptTree]. *)
Definition tree : list CScript := tree_of scripts.

(** [taproot_addr.to_scriptPubKey()] for the key made from [operator_pub]
    and the tree. *)
Definition taproot_spk (tree : list CScript) : script_pubkey := P2TR Operator tree.

(** [n.to_bytes(4, 'big')] *)
Definition to_bytes4 (n : Z) : result (list byte) :=
  if (0 <=? n) && (n <? 2 ^ 32)
  then Ok (SHA256.word_bytes n)
  else Raise OverflowError.

(** [bytes([n])] *)
Definition bytes1 (n : Z) : result (list byte) :=
  if (0 <=? n) && (n <? 256) then Ok [byte_of_Z n] else Raise ValueError.

(** What lines 64-83 bind for step [i]. *)
Record spend : Type := {
  txin : CTxIn;
  log_data : list byte;
  txout_main : CTxOut;
  txout_log : CTxOut;
  tx : CTransaction
}.

Definition prev_txid : string :=
  "9d5d817f9f8f6952962d967edfc95e9cf0c72f4cb91a6caca03e4efc70cd4342".

(** Lines 64-83 of the loop over the step leaves, with the amount and the
    fee (the constants [21000000000] and [1000] of the source) and the
    clock reading as arguments. No comparison of [fee] with the amount
    takes place. *)
Definition build_spend (chain : list (list byte)) (timeouts : list Z)
    (tree : list CScript) (now : float) (amount_sats fee : Z) (i : nat)
  : result spend :=
  match chain !! S i with
  | None => Raise IndexError
  | Some current_data =>
      do txid <- lx prev_txid;
      do outpoint <- mkCOutPoint txid 1;
      match timeouts !! i with
      | None => Raise IndexError
      | Some timeout =>
          do txin <- mkCTxIn outpoint timeout;
          let user_id := encode "user42" in
          let step_hash := firstn 4 (sha256 current_data) in
          do secs <- py_int now;
          do timestamp <- to_bytes4 secs;
          do step_no <- bytes1 (Z.of_nat i + 1);
          let log_data :=
            encode "Step" ++ step_no ++ encode "|" ++ user_id ++ encode "|"
            ++ step_hash ++ encode "|" ++ timestamp in
          let op_return_script := [Op OP_RETURN; Data log_data] in
          let txout_main :=
            {| nValue := amount_sats - fee; scriptPubKey := taproot_spk tree |} in
          let txout_log := {| nValue := 0; scriptPubKey := Literal op_return_script |} in
          Ok {| txin := txin; log_data := log_data;
                txout_main := txout_main; txout_log := txout_log;
                tx := {| vin := [txin]; vout := [txout_main; txout_log] |} |}
      end
  end.

(** Line 84 rebuilds [tx] from the name [txout], which nothing binds:
    the step stops there and lines 85-107 are not reached. *)
Definition challenge_step (chain : list (list byte)) (timeouts : list Z)
    (tree : list CScript) (now : float) (amount_sats fee : Z) (i : nat)
  : result CTransaction :=
  do built <- build_spend chain timeouts tree now amount_sats fee i;
  Raise (NameError "txout").

End PSBTgen.

(** ** PSBTlib.py *)

Module PSBTlib.

Record PSBTInput : Type := { witness_utxo : CTxOut }.
Record PSBTOutput : Type := { amount : Z; script_pubkey : CScript }.
Record PSBT : Type := {
  inputs : list PSBTInput;
  outputs : list PSBTOutput;
  tx_prevout : COutPoint
}.

(** [CPubKey(bytes.fromhex("03" + "00" * 32))] *)
Definition pubkey : list byte := byte_of_Z 3 :: repeat x00 32.

(** Lines 21-34 of [create_punishment_psbt]: the transaction that is then
    serialised, signed and broadcast. [amount] is a binary64 number (an
    integer argument is converted by the first product). *)
Definition create_punishment_psbt (txid : string) (vout : Z) (amount : float)
  : result PSBT :=
  let output_script := [RawKey pubkey; Op OP_CHECKSIG] in
  do value <- py_int (amount * 1e8)%float;
  let tx_out := {| nValue := value; scriptPubKey := Literal output_script |} in
  do hash <- lx txid;
  do outpoint <- mkCOutPoint hash vout;
  let psbt_in := {| witness_utxo := tx_out |} in
  do amount0 <- py_int (amount * 0.9 * 1e8)%float;
  do amount1 <- py_int (amount * 0.1 * 1e8)%float;
  Ok {| inputs := [psbt_in];
        outputs := [ {| amount := amount0; script_pubkey := output_script |};
                     {| amount := amount1; script_pubkey := output_script |} ];
        tx_prevout := outpoint |}.

End PSBTlib.

(** ** BitVM.py: class [BitVMProofBuilder] *)

Module BitVM.

(** A rollup block record: the protocol fields the code reads, each
    possibly absent from the JSON object, and the rollup's own fields,
    which the code only carries along. *)
Record Block : Type := {
  payload : string;
  step_chain : option (list string);
  challenged : option bool;
  proof_generated : option bool;
  proof_verified : option bool;
  ipfs_hashes : option (list string);
  ipfs_hash : option string
}.

(** The empty JSON object [{}]. *)
Definition empty_block : Block :=
  {| payload := ""; step_chain := None; challenged := None;
     proof_generated := None; proof_verified := None;
     ipfs_hashes := None; ipfs_hash := None |}.

(** [block["proof_verified"] = verified; block["proof_generated"] = True] *)
Definition set_proof (block : Block) (verified : bool) : Block :=
  {| payload := payload block; step_chain := step_chain block;
     challenged := challenged block;
     proof_generated := Some true; proof_verified := Some verified;
     ipfs_hashes := ipfs_hashes block; ipfs_hash := ipfs_hash block |}.

Record ProofExport : Type := { proof_steps : option (list string); verified : bool }.
Record TapLeaf : Type := { name : string; script : string; tapleaf_version : string }.
Record ScriptTree : Type := { tapleaf_tree : list TapLeaf }.
Record LogRecord : Type := {
  log_ipfs_hash : string;
  log_txid : string;
  log_commitment : string;
  log_timestamp : float
}.
Record HistoryEntry : Type := { hist_ipfs_hash : string; hist_timestamp : float }.

(** What a file [rollup_block_<key>.json] of the store directory holds. *)
Inductive DbFile : Type :=
| BlockFile (block : Block)
| ProofFile (proof : ProofExport)
| TreeFile (tree : ScriptTree)
| LogFile (log : LogRecord).

(** The builder's state: the files it has written to the store directory,
    [self.history], the history file as it last wrote it, and the command
    lines it has handed to the shell, the oldest first. What a command
    does once the shell runs it is the shell's and is not traced here. *)
Record Store : Type := {
  db : gmap string DbFile;
  history : list HistoryEntry;
  history_file : option (list HistoryEntry);
  shell_calls : list string
}.

(** The library functions and external collaborators a call depends on:
    the JSON encoder, the [ipfs] executable, the cluster pin endpoint, the
    clock, the [hwi] signer and the node RPC. *)
Record Env : Type := {
  json_dumps : Block -> string;
  which_ipfs : bool;
  ipfs_add : Block -> string;
  ipfs_pin_add : string -> result unit;
  cluster_post : string -> result Z;
  ipfs_get : string -> result Block;
  time_time : float;
  hwi_signtx : string -> result unit;
  hwi_finalizetx : string -> result unit;
  read_final_tx : string -> result string;
  sendrawtransaction : string -> result string;
  getrawtransaction : string -> result (list string)
}.

(** *** State and exceptions *)

Definition M (A : Type) : Type := Store -> Store * result A.

Definition ret {A} (a : A) : M A := fun st => (st, Ok a).
Definition lift {A} (r : result A) : M A := fun st => (st, r).
Definition mbind {A B} (m : M A) (k : A -> M B) : M B :=
  fun st =>
    match m st with
    | (st', Ok a) => k a st'
    | (st', Raise e) => (st', Raise e)
    end.

Notation "'run' x <- m ; k" := (mbind m (fun x => k))
  (at level 10, x name, m at level 100, k at level 200).

(** [try: body except Exception as e: handler]; what [body] wrote before
    raising stays written. *)
Definition try_except {A} (body : M A) (handler : py_exception -> M A) : M A :=
  fun st =>
    match body st with
    | (st', Ok a) => (st', Ok a)
    | (st', Raise e) => handler e st'
    end.

Definition write_file (key : string) (f : DbFile) : M unit :=
  fun st => ({| db := <[key := f]> (db st); history := history st;
                history_file := history_file st;
                shell_calls := shell_calls st |}, Ok tt).

(** [with open(path) as f: json.load(f)] *)
Definition read_file (key : string) : M DbFile :=
  fun st =>
    match db st !! key with
    | Some f => (st, Ok f)
    | None => (st, Raise FileNotFoundError)
    end.

Definition append_history (entry : HistoryEntry) : M unit :=
  fun st => ({| db := db st; history := history st ++ [entry];
                history_file := history_file st;
                shell_calls := shell_calls st |}, Ok tt).

Definition save_history : M unit :=
  fun st => ({| db := db st; history := history st;
                history_file := Some (history st);
                shell_calls := shell_calls st |}, Ok tt).

(** [os.system(command)]: the text goes to the shell as it is; the exit
    status comes back as a number that the caller drops. *)
Definition os_system (command : string) : M unit :=
  fun st => ({| db := db st; history := history st;
                history_file := history_file st;
                shell_calls := shell_calls st ++ [command] |}, Ok tt).

(** [str(path)] for a file of the store directory, which is
    [rollup_block_db] unless the builder is made with another one. *)
Definition db_path (file : string) : string := "rollup_block_db/" +:+ file.

Section Methods.

Variable env : Env.

(** [sha256(json.dumps(block_data).encode()).hexdigest()[:16]] *)
Definition content_id (block_data : Block) : string :=
  str_take 16 (hexdigest (encode (json_dumps env block_data))).

(** [pin_to_ipfs]: every failure is caught and printed; nothing is
    returned. *)
Definition pin_to_ipfs (ipfs_hash : string) : M unit :=
  try_except
    (run _ <- lift (ipfs_pin_add env ipfs_hash);
     run status_code <- lift (cluster_post env ipfs_hash);
     ret tt)
    (fun _ => ret tt).

(** [store_rollup_block(block_data, block_id)] *)
Definition store_rollup_block (block_data : Block) (block_id : option string)
  : M string :=
  run _ <- (if which_ipfs env then
              let ipfs_hash := ipfs_add env block_data in
              run _ <- pin_to_ipfs ipfs_hash;
              run _ <- append_history {| hist_ipfs_hash := ipfs_hash;
                                         hist_timestamp := time_time env |};
              save_history
            else ret tt);
  let block_id := str_or block_id (content_id block_data) in
  run _ <- write_file block_id (BlockFile block_data);
  ret block_id.

(** [load_block(block_id)] *)
Definition load_block (block_id : string) : M DbFile := read_file block_id.

(** [fetch_from_ipfs(ipfs_hash)] *)
Definition fetch_from_ipfs (ipfs_hash : string) : M Block :=
  try_except
    (run block_data <- lift (ipfs_get env ipfs_hash);
     let expected := str_take 16 ipfs_hash in
     let actual := content_id block_data in
     run _ <- store_rollup_block block_data (Some actual);
     ret block_data)
    (fun _ => ret empty_block).

(** One adjacent pair of the chain check:
    [sha256(bytes.fromhex(step_data[i])).hexdigest() == step_data[i + 1]]. *)
Definition check_pair (step_data : list string) (i : nat) : result bool :=
  match step_data !! i with
  | None => Raise IndexError
  | Some a =>
      match fromhex a with
      | None => Raise ValueError
      | Some preimage =>
          match step_data !! S i with
          | None => Raise IndexError
          | Some b => Ok (String.eqb (hexdigest preimage) b)
          end
      end
  end.

(** [all(gen)]: the generator is consumed up to the first false item;
    an exception raised by an item that is reached propagates. *)
Fixpoint py_all {A} (item : A -> result bool) (xs : list A) : result bool :=
  match xs with
  | [] => Ok true
  | x :: xs' =>
      do b <- item x;
      if b then py_all item xs' else Ok false
  end.

(** The value bound to [verified] in [process_challenge]. *)
Definition chain_verified (step_data : list string) : result bool :=
  py_all (check_pair step_data) (seq 0 (List.length step_data - 1)).

(** The descriptors of the tree file, one for each item of the chain. *)
Definition tapleaf_descriptors (steps : list string) : list TapLeaf :=
  imap (fun i step =>
          {| name := "step_" +:+ pretty i;
             script := "OP_SHA256 " +:+ step +:+ " OP_EQUAL";
             tapleaf_version := "c0" |}) steps.

(** [block.get("ipfs_hashes") or [block.get("ipfs_hash")]], without its
    falsy entries. *)
Definition block_handles (block : Block) : list string :=
  let candidates :=
    match ipfs_hashes block with
    | Some (h :: hs) => List.map Some (h :: hs)
    | _ => [ipfs_hash block]
    end in
  omap (fun h => match h with
                 | Some s => if String.eqb s "" then None else Some s
                 | None => None
                 end) candidates.

(** The text handed to the external generator as [--op_return]. *)
Definition op_return_script (block : Block) : string :=
  str_take 80 (join " " (firstn 4 (block_handles block))).

(** The command line of line 181: the two paths and the handles are put
    into the text without quotes. *)
Definition generator_command (block : Block) (key : string) : string :=
  let tree_file := db_path ("rollup_block_" +:+ key +:+ "_tree.json") in
  let psbt_out := db_path ("rollup_block_" +:+ key +:+ "_challenge.psbt") in
  "taproot-psbt-generator --tree " +:+ tree_file
    +:+ " --output " +:+ psbt_out
    +:+ " --op_return " +:+ op_return_script block.

(** Lines 208-216. [commitment] is the local variable of that name at
    this point of the function: [None] while nothing is bound to it. *)
Fixpoint scan_outputs (commitment : option (list byte)) (outputs : list string)
  : result bool :=
  match outputs with
  | [] => Ok false
  | script :: rest =>
      if startswith "OP_RETURN" script then
        match commitment with
        | None => Raise (UnboundLocalError "commitment")
        | Some c => if str_in (hex c) script then Ok true else scan_outputs commitment rest
        end
      else scan_outputs commitment rest
  end.

(** Lines 219-226: the commitment of a block. With a handle at hand it is
    the digest of all the handles joined, otherwise that of the chain
    joined. *)
Definition commitment_of (block : Block) : list byte :=
  let handles := block_handles block in
  match head handles with
  | Some ipfs_hash => sha256 (encode (join "" handles))
  | None => sha256 (encode (join "" (default [] (step_chain block))))
  end.

(** The body of the [try] of [process_challenge] (lines 186-236). The
    scan of line 209 runs before line 224 or 226 binds [commitment]. *)
Definition sign_and_broadcast (block : Block) (key : string) : M unit :=
  run _ <- lift (hwi_signtx env key);
  run _ <- lift (hwi_finalizetx env key);
  run tx_hex <- lift (read_final_tx env key);
  run txid <- lift (sendrawtransaction env tx_hex);
  let sighash := hexdigest (encode tx_hex) in
  run outputs <- lift (getrawtransaction env txid);
  run found_opreturn <- lift (scan_outputs None outputs);
  let first_handle := head (block_handles block) in
  let commitment := commitment_of block in
  write_file (key +:+ "_log")
    (LogFile {| log_ipfs_hash := default "N/A" first_handle;
                log_txid := txid;
                log_commitment := hex commitment;
                log_timestamp := time_time env |}).

(** [process_challenge(block, file_path)], [key] being the part of the
    file name between [rollup_block_] and [.json]. *)
Definition process_challenge (block : Block) (key : string) : M unit :=
  let step_data := default [] (step_chain block) in
  run verified <- lift (chain_verified step_data);
  let block := set_proof block verified in
  run _ <- write_file key (BlockFile block);
  run _ <- write_file (key +:+ "_proof")
             (ProofFile {| proof_steps := step_chain block; verified := verified |});
  let script_tree :=
    {| tapleaf_tree := tapleaf_descriptors (default [] (step_chain block)) |} in
  run _ <- write_file (key +:+ "_tree") (TreeFile script_tree);
  run _ <- os_system (generator_command block key);
  try_except (sign_and_broadcast block key) (fun _ => ret tt).

(** The test of the watcher on a loaded file; only a block record has
    the key [challenged]. *)
Definition eligible (f : DbFile) : bool :=
  match f with
  | BlockFile block => truthy (challenged block) && negb (truthy (proof_generated block))
  | _ => false
  end.

(** One pass of the loop of [watch_for_challenges] over the files the
    directory scan returned. *)
Fixpoint watch_tick (files : list string) : M unit :=
  match files with
  | [] => ret tt
  | block_file :: rest =>
      run f <- read_file block_file;
      run _ <- match f with
               | BlockFile block =>
                   if eligible f then process_challenge block block_file else ret tt
               | _ => ret tt
               end;
      watch_tick rest
  end.

End Methods.

(** [load_history()]: the content of the history file, [[]] without one. *)
Definition load_history : M (list HistoryEntry) :=
  fun st => (st, Ok (default [] (history_file st))).

(** The name of the file of the store directory with the given key. *)
Definition file_name (key : string) : string := "rollup_block_" +:+ key +:+ ".json".

(** [list_blocks()]: [sorted] over the names of the files the directory
    scan returned. *)
Definition list_blocks (files : list string) : list string :=
  merge_sort String.le (file_name <$> files).

(** The id [auto_update_utxo_state] reads off a listed name (line 83):
    [block_file.split("_")[2].split(".")[0]]. *)
Definition listed_block_id (block_file : string) : result string :=
  match py_split "_" block_file !! 2%nat with
  | None => Raise IndexError
  | Some part =>
      match py_split "." part !! 0%nat with
      | None => Raise IndexError
      | Some id => Ok id
      end
  end.

End BitVM.

(** ** Properties used in the statements *)

(** The relation the watcher checks on an adjacent pair of a stored chain:
    [b] is the lower-case hex digest of the bytes that [a] encodes. *)
Definition hash_rel (a b : string) : Prop :=
  exists preimage, fromhex a = Some preimage /\ hexdigest preimage = b.

(** The same relation on the bytes of a chain. *)
Definition linked (chain : list (list byte)) : Prop :=
  forall i a b, chain !! i = Some a -> chain !! S i = Some b -> sha256 a = b.

(** The chain check, by recursion on the chain. *)
Fixpoint chain_check (step_data : list string) : result bool :=
  match step_data with
  | a :: (b :: _) as rest =>
      match fromhex a with
      | None => Raise ValueError
      | Some preimage =>
          if String.eqb (hexdigest preimage) b then chain_check rest else Ok false
      end
  | _ => Ok true
  end.

(** The keys of the files [process_challenge] derives from a block file. *)
Definition derived_keys (key : string) : list string :=
  [key +:+ "_proof"; key +:+ "_tree"; key +:+ "_log"].

(** No block record is stored under a key derived from the key of a block
    that awaits processing. *)
Definition artifacts_apart (m : gmap string BitVM.DbFile) : Prop :=
  forall key block key' block',
    m !! key = Some (BitVM.BlockFile block) ->
    BitVM.eligible (BitVM.BlockFile block) = true ->
    key' ∈ derived_keys key ->
    m !! key' <> Some (BitVM.BlockFile block').


(** The pinning collaborator pinned the handle: the local pin succeeded and
    the cluster answered 202. *)
Definition pin_succeeds (env : BitVM.Env) (handle : string) : Prop :=
  BitVM.ipfs_pin_add env handle = Ok tt /\ BitVM.cluster_post env handle = Ok 202.

(** The history entry a call of [store_rollup_block] appends when it
    appends one. *)
Definition commit_entry (env : BitVM.Env) (block_data : BitVM.Block) : BitVM.HistoryEntry :=
  {| BitVM.hist_ipfs_hash := BitVM.ipfs_add env block_data;
     BitVM.hist_timestamp := BitVM.time_time env |}.

(** An environment in which every collaborator fails, and one in which the
    [ipfs] executable exists but pinning fails. *)
Definition offline_env : BitVM.Env :=
  {| BitVM.json_dumps := fun b => BitVM.payload b;
     BitVM.which_ipfs := false;
     BitVM.ipfs_add := fun _ => "";
     BitVM.ipfs_pin_add := fun _ => Raise CalledProcessError;
     BitVM.cluster_post := fun _ => Raise RPCError;
     BitVM.ipfs_get := fun _ => Raise FileNotFoundError;
     BitVM.time_time := 1700000000;
     BitVM.hwi_signtx := fun _ => Raise CalledProcessError;
     BitVM.hwi_finalizetx := fun _ => Raise CalledProcessError;
     BitVM.read_final_tx := fun _ => Raise FileNotFoundError;
     BitVM.sendrawtransaction := fun _ => Raise RPCError;
     BitVM.getrawtransaction := fun _ => Raise RPCError |}.

Definition unpinned_env : BitVM.Env :=
  {| BitVM.json_dumps := fun b => BitVM.payload b;
     BitVM.which_ipfs := true;
     BitVM.ipfs_add := fun _ => "QmHandle";
     BitVM.ipfs_pin_add := fun _ => Raise CalledProcessError;
     BitVM.cluster_post := fun _ => Raise RPCError;
     BitVM.ipfs_get := fun _ => Raise FileNotFoundError;
     BitVM.time_time := 1700000000;
     BitVM.hwi_signtx := fun _ => Raise CalledProcessError;
     BitVM.hwi_finalizetx := fun _ => Raise CalledProcessError;
     BitVM.read_final_tx := fun _ => Raise FileNotFoundError;
     BitVM.sendrawtransaction := fun _ => Raise RPCError;
     BitVM.getrawtransaction := fun _ => Raise RPCError |}.

Definition empty_store : BitVM.Store :=
  {| BitVM.db := ∅; BitVM.history := []; BitVM.history_file := None;
     BitVM.shell_calls := [] |}.

(** The block of the end-to-end scenario: the chain of [PSBTgen.py], hex
    encoded in the order [step_chain] returns it, marked as challenged. *)
Definition scenario_block : BitVM.Block :=
  {| BitVM.payload := "";
     BitVM.step_chain := Some (List.map hex PSBTgen.chain);
     BitVM.challenged := Some true;
     BitVM.proof_generated := None;
     BitVM.proof_verified := None;
     BitVM.ipfs_hashes := None;
     BitVM.ipfs_hash := None |}.

Definition scenario_store (key : string) : BitVM.Store :=
  {| BitVM.db := {[ key := BitVM.BlockFile scenario_block ]};
     BitVM.history := []; BitVM.history_file := None;
     BitVM.shell_calls := [] |}.

(** A challenged block whose chain is a single item that is not hex text. *)
Definition single_item_block : BitVM.Block :=
  {| BitVM.payload := ""; BitVM.step_chain := Some ["zz"%string];
     BitVM.challenged := Some true; BitVM.proof_generated := None;
     BitVM.proof_verified := None; BitVM.ipfs_hashes := None; BitVM.ipfs_hash := None |}.

(** A store holding one challenged block whose two-item chain breaks the
    hash relation. *)
Definition broken_block : BitVM.Block :=
  {| BitVM.payload := ""; BitVM.step_chain := Some ["00"%string; "11"%string];
     BitVM.challenged := Some true; BitVM.proof_generated := None;
     BitVM.proof_verified := None; BitVM.ipfs_hashes := None; BitVM.ipfs_hash := None |}.

Definition broken_key : string := "00ff00ff00ff00ff".


(** An environment whose content store delivers the empty record for
    every handle. *)
Definition fetching_env : BitVM.Env :=
  {| BitVM.json_dumps := fun b => BitVM.payload b;
     BitVM.which_ipfs := false;
     BitVM.ipfs_add := fun _ => "";
     BitVM.ipfs_pin_add := fun _ => Raise CalledProcessError;
     BitVM.cluster_post := fun _ => Raise RPCError;
     BitVM.ipfs_get := fun _ => Ok BitVM.empty_block;
     BitVM.time_time := 1700000000;
     BitVM.hwi_signtx := fun _ => Raise CalledProcessError;
     BitVM.hwi_finalizetx := fun _ => Raise CalledProcessError;
     BitVM.read_final_tx := fun _ => Raise FileNotFoundError;
     BitVM.sendrawtransaction := fun _ => Raise RPCError;
     BitVM.getrawtransaction := fun _ => Raise RPCError |}.

(** An environment in which signing and broadcast succeed and the node
    reports the given output scripts for the broadcast transaction. *)
Definition online_env (outputs : list string) : BitVM.Env :=
  {| BitVM.json_dumps := fun b => BitVM.payload b;
     BitVM.which_ipfs := false;
     BitVM.ipfs_add := fun _ => "";
     BitVM.ipfs_pin_add := fun _ => Raise CalledProcessError;
     BitVM.cluster_post := fun _ => Raise RPCError;
     BitVM.ipfs_get := fun _ => Raise FileNotFoundError;
     BitVM.time_time := 1700000000;
     BitVM.hwi_signtx := fun _ => Ok tt;
     BitVM.hwi_finalizetx := fun _ => Ok tt;
     BitVM.read_final_tx := fun _ => Ok "0200"%string;
     BitVM.sendrawtransaction := fun _ => Ok "ab"%string;
     BitVM.getrawtransaction := fun _ => Ok outputs |}.

(** A store holding one challenged block whose chain starts with text
    that is not hexadecimal. *)
Definition garbled_block : BitVM.Block :=
  {| BitVM.payload := ""; BitVM.step_chain := Some ["zz"%string; "00"%string];
     BitVM.challenged := Some true; BitVM.proof_generated := None;
     BitVM.proof_verified := None; BitVM.ipfs_hashes := None; BitVM.ipfs_hash := None |}.

Definition garbled_store : BitVM.Store :=
  {| BitVM.db := {[ broken_key := BitVM.BlockFile garbled_block ]};
     BitVM.history := []; BitVM.history_file := None;
     BitVM.shell_calls := [] |}.


(** A challenged block that carries two handles, and one whose single
    handle holds text that the shell reads as a second command. *)
Definition pinned_block : BitVM.Block :=
  {| BitVM.payload := "batch-7"; BitVM.step_chain := Some ["00"%string; "11"%string];
     BitVM.challenged := Some true; BitVM.proof_generated := None;
     BitVM.proof_verified := None;
     BitVM.ipfs_hashes := Some ["QmA"%string; "QmB"%string];
     BitVM.ipfs_hash := Some "QmOld"%string |}.

Definition spliced_block : BitVM.Block :=
  {| BitVM.payload := "batch-8"; BitVM.step_chain := Some [];
     BitVM.challenged := Some true; BitVM.proof_generated := None;
     BitVM.proof_verified := None;
     BitVM.ipfs_hashes := None;
     BitVM.ipfs_hash := Some "QmA; touch x"%string |}.

(** An environment with the [ipfs] executable, a pinning service that
    answers 202 and a content store that delivers [pinned_block]; the
    encoder writes the payload and the chain of a record. *)
Definition pinning_env : BitVM.Env :=
  {| BitVM.json_dumps :=
       fun b => BitVM.payload b +:+ ":" +:+ join "," (default [] (BitVM.step_chain b));
     BitVM.which_ipfs := true;
     BitVM.ipfs_add := fun b => "Qm" +:+ BitVM.payload b;
     BitVM.ipfs_pin_add := fun _ => Ok tt;
     BitVM.cluster_post := fun _ => Ok 202;
     BitVM.ipfs_get := fun _ => Ok pinned_block;
     BitVM.time_time := 1700000000;
     BitVM.hwi_signtx := fun _ => Raise CalledProcessError;
     BitVM.hwi_finalizetx := fun _ => Raise CalledProcessError;
     BitVM.read_final_tx := fun _ => Raise FileNotFoundError;
     BitVM.sendrawtransaction := fun _ => Raise RPCError;
     BitVM.getrawtransaction := fun _ => Raise RPCError |}.

(** The chain in the order [step_chain] returns it: every item is the
    SHA-256 of the item after it. *)
Definition back_linked (chain : list (list byte)) : Prop :=
  forall i a b, chain !! i = Some a -> chain !! S i = Some b -> a = sha256 b.

(** Block records live under keys of 16 characters. *)
Definition block_keys_16 (st : BitVM.Store) : Prop :=
  forall k block, BitVM.db st !! k = Some (BitVM.BlockFile block) -> String.length k = 16%nat.

(** The history file holds what [self.history] holds. *)
Definition history_in_sync (st : BitVM.Store) : Prop :=
  default [] (BitVM.history_file st) = BitVM.history st.


(** [st'] comes from [st] by writes of the builder that leave the history
    and the history file alone, keep every key and put no block record
    under a key that held none. *)
Definition store_extends (st st' : BitVM.Store) : Prop :=
  BitVM.history st' = BitVM.history st
  /\ BitVM.history_file st' = BitVM.history_file st
  /\ (forall k, is_Some (BitVM.db st !! k) -> is_Some (BitVM.db st' !! k))
  /\ (forall k block', BitVM.db st' !! k = Some (BitVM.BlockFile block') ->
        exists block, BitVM.db st !! k = Some (BitVM.BlockFile block)).

(** [c in s] for a character. *)
Fixpoint str_mem (c : ascii) (s : string) : bool :=
  match s with
  | EmptyString => false
  | String d s' => Ascii.eqb c d || str_mem c s'
  end.

(** A call of the builder by its user, with the environment it runs in:
    storing a block under its content id, fetching a handle, or one pass of
    the watcher over a listing. *)
Inductive call : Type :=
| CallStore (block : BitVM.Block)
| CallFetch (handle : string)
| CallTick (files : list string).

Definition run_call (st : BitVM.Store) (c : BitVM.Env * call) : BitVM.Store :=
  match c with
  | (env, CallStore block) => fst (BitVM.store_rollup_block env block None st)
  | (env, CallFetch handle) => fst (BitVM.fetch_from_ipfs env handle st)
  | (env, CallTick files) => fst (BitVM.watch_tick env files st)
  end.

Definition run_calls (calls : list (BitVM.Env * call)) (st : BitVM.Store) : BitVM.Store :=
  fold_left run_call calls st.

(** The calls that store or fetch; a pass of the watcher is not one. *)
Definition is_tick (c : call) : bool :=
  match c with
  | CallTick _ => true
  | _ => false
  end.

Definition no_tick (calls : list (BitVM.Env * call)) : bool :=
  forallb (fun c => negb (is_tick (snd c))) calls.

(** ** Test vectors *)

Example sha256_empty :
  hexdigest [] = "e3b0c44298fc1c149afbf4c8996fb92427ae41e4649b934ca495991b7852b855"%string.
Proof. vm_compute. reflexivity. Qed.

Example sha256_abc :
  hexdigest (encode "abc")
  = "ba7816bf8f01cfea414140de5dae2223b00361a396177a9cb410ff61f20015ad"%string.
Proof. vm_compute. reflexivity. Qed.

Example sha256_two_blocks :
  hexdigest (encode "abcdbcdecdefdefgefghfghighijhijkijkljklmklmnlmnomnopnopq")
  = "248d6a61d20638b8e5c026930c3e6039a33ce45964ff2167f6ecedd419db06c1"%string.
Proof. vm_compute. reflexivity. Qed.

Example py_int_pos : py_int 2.75 = Ok 2. Proof. reflexivity. Qed.

Example py_int_big : py_int 1e8 = Ok 100000000. Proof. reflexivity. Qed.
Example py_int_neg : py_int (-2.75) = Ok (-2). Proof. reflexivity. Qed.

Example fromhex_spaces : fromhex "0a FF" = Some [x0a; xff]. Proof. reflexivity. Qed.
Example fromhex_odd : fromhex "0a1" = None. Proof. reflexivity. Qed.
Example fromhex_split_pair : fromhex "0 a" = None. Proof. reflexivity. Qed.
Example hex_lower : hex [x0a; xff] = "0aff"%string. Proof. reflexivity. Qed.
Example pretty_step : BitVM.tapleaf_descriptors ["aa"; "bb"]
  = [ {| BitVM.name := "step_0"; BitVM.script := "OP_SHA256 aa OP_EQUAL";
         BitVM.tapleaf_version := "c0" |};
      {| BitVM.name := "step_1"; BitVM.script := "OP_SHA256 bb OP_EQUAL";
         BitVM.tapleaf_version := "c0" |} ].
Proof. vm_compute. reflexivity. Qed.

(** The demo block of [BitVM.py] passes the chain check. *)
Example demo_block_verified :
  BitVM.chain_verified
    [hexdigest (encode "rollup_state"); hexdigest (sha256 (encode "rollup_state"))]
  = Ok true.
Proof. vm_compute. reflexivity. Qed.

(** Text that is not hexadecimal makes the chain check, and with it the pass
    of the watcher, raise [ValueError]; the block is left as it was. *)
Example watch_tick_stops_on_bad_hex :
  BitVM.watch_tick offline_env [broken_key] garbled_store
  = (garbled_store, Raise ValueError).
Proof. vm_compute. reflexivity. Qed.

(** The first false pair ends the check: the text after it is not decoded. *)
Example chain_check_short_circuits :
  BitVM.chain_verified ["00"; "11"; "zz"; "zz"]%string = Ok false.
Proof. vm_compute. reflexivity. Qed.

Example py_split_name :
  py_split "_" "rollup_block_ab_proof.json" = ["rollup"; "block"; "ab"; "proof.json"]%string.
Proof. reflexivity. Qed.
Example py_split_edges : py_split "." ".a." = [""; "a"; ""]%string.
Proof. reflexivity. Qed.
Example list_blocks_sorted :
  BitVM.list_blocks ["b"; "a_proof"; "a"]%string
  = ["rollup_block_a.json"; "rollup_block_a_proof.json"; "rollup_block_b.json"]%string.
Proof. vm_compute. reflexivity. Qed.

(** ** Hexadecimal text *)

Lemma byte_of_Z_of_byte (b : byte) : byte_of_Z (Z_of_byte b) = b.
Proof. destruct b; reflexivity. Qed.

Lemma fromhex_hex_byte (b : byte) (s : string) :
  fromhex (hex_byte b +:+ s)
  = match fromhex s with Some bs => Some (b :: bs) | None => None end.
Proof. destruct b; reflexivity. Qed.

Lemma fromhex_hex (bs : list byte) : fromhex (hex bs) = Some bs.
Proof.
  induction bs as [|b bs IH]; [reflexivity|].
  cbn [hex]. rewrite fromhex_hex_byte, IH. reflexivity.
Qed.

Lemma hex_byte_inj (a b : byte) : hex_byte a = hex_byte b -> a = b.
Proof.
  intros H.
  assert (E : fromhex (hex_byte a +:+ "") = fromhex (hex_byte b +:+ ""))
    by (rewrite H; reflexivity).
  rewrite !fromhex_hex_byte in E. cbn in E. congruence.
Qed.

Lemma hex_inj (xs ys : list byte) : hex xs = hex ys -> xs = ys.
Proof.
  intros H. assert (E : fromhex (hex xs) = fromhex (hex ys)) by (rewrite H; reflexivity).
  rewrite !fromhex_hex in E. congruence.
Qed.

Lemma hash_rel_hex (a b : list byte) : hash_rel (hex a) (hex b) <-> sha256 a = b.
Proof.
  unfold hash_rel, hexdigest. split.
  - intros (p & Hp & Hd). rewrite fromhex_hex in Hp. injection Hp as <-.
    apply hex_inj, Hd.
  - intros <-. exists a. split; [apply fromhex_hex | reflexivity].
Qed.

(** ** The chain check *)

Lemma py_all_shift (a : string) (l : list string) (n k : nat) :
  BitVM.py_all (BitVM.check_pair (a :: l)) (seq (S k) n)
  = BitVM.py_all (BitVM.check_pair l) (seq k n).
Proof.
  revert k. induction n as [|n IH]; intros k; [reflexivity|].
  cbn [seq BitVM.py_all]. rewrite IH. reflexivity.
Qed.

Lemma chain_verified_check (step_data : list string) :
  BitVM.chain_verified step_data = chain_check step_data.
Proof.
  induction step_data as [|a [|b rest] IH]; [reflexivity | reflexivity |].
  unfold BitVM.chain_verified in *.
  replace (List.length (a :: b :: rest) - 1)%nat with (S (List.length (b :: rest) - 1))
    by (cbn [List.length]; lia).
  cbn [seq BitVM.py_all]. rewrite py_all_shift, IH.
  cbn. destruct (fromhex a) as [p|]; [|reflexivity].
  cbn. destruct (String.eqb (hexdigest p) b); reflexivity.
Qed.

Lemma chain_check_true (step_data : list string) :
  chain_check step_data = Ok true
  <-> forall i a b, step_data !! i = Some a -> step_data !! S i = Some b -> hash_rel a b.
Proof.
  induction step_data as [|a [|b rest] IH].
  - split; [intros _ i x y H; destruct i; discriminate | reflexivity].
  - split; [intros _ i x y _ H; destruct i; discriminate | reflexivity].
  - cbn [chain_check]. split.
    + intros H. destruct (fromhex a) as [p|] eqn:Ha; [|discriminate].
      destruct (String.eqb_spec (hexdigest p) b) as [Hb|]; [|discriminate].
      intros [|i] x y Hx Hy.
      * cbn in Hx, Hy. injection Hx as <-. injection Hy as <-. exists p. auto.
      * apply (proj1 IH H i); assumption.
    + intros H. destruct (H 0%nat a b eq_refl eq_refl) as (p & Hp & Hd).
      rewrite Hp. rewrite (proj2 (String.eqb_eq _ _) Hd).
      apply IH. intros i x y Hx Hy. apply (H (S i)); assumption.
Qed.

Lemma chain_check_false (step_data : list string) :
  chain_check step_data = Ok false ->
  exists i a b, step_data !! i = Some a /\ step_data !! S i = Some b /\ ~ hash_rel a b.
Proof.
  induction step_data as [|a [|b rest] IH]; [discriminate | discriminate |].
  cbn [chain_check]. destruct (fromhex a) as [p|] eqn:Ha; [|discriminate].
  destruct (String.eqb_spec (hexdigest p) b) as [Hb|Hb].
  - intros H. destruct (IH H) as (i & x & y & Hx & Hy & Hn).
    exists (S i), x, y. auto.
  - intros _. exists 0%nat, a, b. split; [reflexivity|]. split; [reflexivity|].
    intros (q & Hq & Hd). congruence.
Qed.

Lemma chain_check_returns (step_data : list string) :
  Forall (fun s => is_Some (fromhex s)) step_data ->
  exists v, chain_check step_data = Ok v.
Proof.
  induction step_data as [|a [|b rest] IH]; intros HF; [eexists; reflexivity ..|].
  cbn [chain_check]. inversion HF as [|? ? [p Hp] HF']; subst.
  rewrite Hp. destruct (String.eqb (hexdigest p) b); [apply IH, HF' | eexists; reflexivity].
Qed.

Lemma chain_check_short (step_data : list string) :
  (List.length step_data < 2)%nat -> chain_check step_data = Ok true.
Proof. destruct step_data as [|a [|b rest]]; cbn; intros; [reflexivity .. | lia]. Qed.

Lemma linked_hex (chain : list (list byte)) :
  linked chain
  <-> forall i a b, List.map hex chain !! i = Some a -> List.map hex chain !! S i = Some b ->
                    hash_rel a b.
Proof.
  unfold linked. split.
  - intros H i a b Ha Hb.
    change (List.map hex chain) with (hex <$> chain) in Ha, Hb.
    rewrite list_lookup_fmap in Ha, Hb.
    destruct (chain !! i) as [x|] eqn:Hx; [|discriminate].
    destruct (chain !! S i) as [y|] eqn:Hy; [|discriminate].
    cbn in Ha, Hb. injection Ha as <-. injection Hb as <-.
    apply hash_rel_hex. eauto.
  - intros H i a b Ha Hb. apply hash_rel_hex. apply (H i).
    + change (List.map hex chain) with (hex <$> chain). rewrite list_lookup_fmap, Ha. reflexivity.
    + change (List.map hex chain) with (hex <$> chain). rewrite list_lookup_fmap, Hb. reflexivity.
Qed.

(** ** The chain of [step_chain] *)

Lemma linked_snoc (chain : list (list byte)) :
  chain <> [] -> linked chain -> linked (chain ++ [sha256 (List.last chain [])]).
Proof.
  intros Hne HL i a b Ha Hb.
  assert (Hi : (S i < List.length (chain ++ [sha256 (List.last chain [])]))%nat)
    by (apply lookup_lt_is_Some; eauto).
  rewrite length_app in Hi. cbn in Hi.
  rewrite lookup_app_l in Ha by lia.
  destruct (decide (S i < List.length chain)%nat) as [Hlt|Hge].
  - rewrite lookup_app_l in Hb by lia. eauto.
  - assert (Hlen : S i = List.length chain) by lia.
    rewrite lookup_app_r in Hb by lia.
    replace (S i - List.length chain)%nat with 0%nat in Hb by lia.
    cbn in Hb. injection Hb as <-. f_equal.
    destruct (exists_last Hne) as (front & x & ->).
    rewrite List.last_last. rewrite length_app in Hlen. cbn in Hlen.
    rewrite lookup_app_r in Ha by lia.
    replace (i - List.length front)%nat with 0%nat in Ha by lia.
    cbn in Ha. congruence.
Qed.

Lemma step_chain_loop_linked (steps : nat) (chain : list (list byte)) :
  chain <> [] -> linked chain -> linked (PSBTgen.step_chain_loop steps chain).
Proof.
  revert chain. induction steps as [|n IH]; intros chain Hne HL; [exact HL|].
  cbn [PSBTgen.step_chain_loop]. apply IH.
  - destruct chain; discriminate.
  - apply linked_snoc; assumption.
Qed.

Lemma step_chain_loop_length (steps : nat) (chain : list (list byte)) :
  List.length (PSBTgen.step_chain_loop steps chain) = (List.length chain + steps)%nat.
Proof.
  revert chain. induction steps as [|n IH]; intros chain; cbn [PSBTgen.step_chain_loop].
  - lia.
  - rewrite IH, length_app. cbn. lia.
Qed.

(** ** Keys of the store directory *)

Lemma str_app_empty (s : string) : s +:+ "" = s.
Proof.
  induction s as [|c s IH]; [reflexivity|].
  change (String c (s +:+ "") = String c s). rewrite IH. reflexivity.
Qed.

Lemma derived_ne_key (key sfx : string) : sfx <> ""%string -> key +:+ sfx <> key.
Proof.
  intros Hs H. apply Hs. apply (String.app_inj key).
  rewrite H. symmetry. apply str_app_empty.
Qed.

Lemma derived_ne_derived (key s1 s2 : string) : s1 <> s2 -> key +:+ s1 <> key +:+ s2.
Proof. intros Hs H. apply Hs. exact (String.app_inj key _ _ H). Qed.

Lemma elem_of_derived_keys (key k : string) :
  k ∈ derived_keys key
  <-> k = key +:+ "_proof" \/ k = key +:+ "_tree" \/ k = key +:+ "_log".
Proof.
  unfold derived_keys. rewrite !elem_of_cons, elem_of_nil. tauto.
Qed.

Lemma key_not_derived (key : string) : key ∉ derived_keys key.
Proof.
  rewrite elem_of_derived_keys.
  intros [H|[H|H]]; symmetry in H; revert H; apply derived_ne_key; discriminate.
Qed.

(** ** Processing one challenge *)

Section Processing.

Variable env : BitVM.Env.

Lemma sign_and_broadcast_frame (block : BitVM.Block) (key : string) (st : BitVM.Store) :
  exists st',
    BitVM.try_except (BitVM.sign_and_broadcast env block key) (fun _ => BitVM.ret tt) st
    = (st', Ok tt)
    /\ BitVM.history st' = BitVM.history st
    /\ BitVM.history_file st' = BitVM.history_file st
    /\ (forall k, k <> key +:+ "_log" -> BitVM.db st' !! k = BitVM.db st !! k)
    /\ (BitVM.db st' !! (key +:+ "_log") = BitVM.db st !! (key +:+ "_log")
        \/ exists l, BitVM.db st' !! (key +:+ "_log") = Some (BitVM.LogFile l)).
Proof.
  unfold BitVM.try_except, BitVM.sign_and_broadcast, BitVM.mbind, BitVM.lift, BitVM.ret,
    BitVM.write_file.
  destruct (BitVM.hwi_signtx env key); [|eexists; repeat split; eauto].
  destruct (BitVM.hwi_finalizetx env key); [|eexists; repeat split; eauto].
  destruct (BitVM.read_final_tx env key) as [tx_hex|]; [|eexists; repeat split; eauto].
  destruct (BitVM.sendrawtransaction env tx_hex) as [txid|]; [|eexists; repeat split; eauto].
  destruct (BitVM.getrawtransaction env txid) as [outputs|]; [|eexists; repeat split; eauto].
  destruct (BitVM.scan_outputs None outputs); [|eexists; repeat split; eauto].
  eexists. split; [reflexivity|]. cbn. repeat split.
  - intros k Hk. apply lookup_insert_ne. congruence.
  - right. eexists. apply lookup_insert_eq.
Qed.

Lemma process_challenge_raises (block : BitVM.Block) (key : string) (st : BitVM.Store)
    (e : py_exception) :
  BitVM.chain_verified (default [] (BitVM.step_chain block)) = Raise e ->
  BitVM.process_challenge env block key st = (st, Raise e).
Proof.
  intros H. unfold BitVM.process_challenge, BitVM.mbind, BitVM.lift. rewrite H. reflexivity.
Qed.

Lemma process_challenge_spec (block : BitVM.Block) (key : string) (st : BitVM.Store)
    (v : bool) :
  BitVM.chain_verified (default [] (BitVM.step_chain block)) = Ok v ->
  exists st',
    BitVM.process_challenge env block key st = (st', Ok tt)
    /\ BitVM.history st' = BitVM.history st
    /\ BitVM.history_file st' = BitVM.history_file st
    /\ BitVM.db st' !! key = Some (BitVM.BlockFile (BitVM.set_proof block v))
    /\ BitVM.db st' !! (key +:+ "_proof")
       = Some (BitVM.ProofFile {| BitVM.proof_steps := BitVM.step_chain block;
                                  BitVM.verified := v |})
    /\ BitVM.db st' !! (key +:+ "_tree")
       = Some (BitVM.TreeFile
                 {| BitVM.tapleaf_tree :=
                      BitVM.tapleaf_descriptors (default [] (BitVM.step_chain block)) |})
    /\ (forall k, k <> key -> k ∉ derived_keys key -> BitVM.db st' !! k = BitVM.db st !! k)
    /\ (BitVM.db st' !! (key +:+ "_log") = BitVM.db st !! (key +:+ "_log")
        \/ exists l, BitVM.db st' !! (key +:+ "_log") = Some (BitVM.LogFile l)).
Proof.
  intros H. unfold BitVM.process_challenge.
  unfold BitVM.mbind at 1. unfold BitVM.lift. rewrite H.
  unfold BitVM.mbind, BitVM.write_file, BitVM.os_system.
  cbn [BitVM.db BitVM.history BitVM.history_file BitVM.shell_calls].
  match goal with
  | |- context [BitVM.try_except ?body ?h ?s] =>
      destruct (sign_and_broadcast_frame (BitVM.set_proof block v) key s)
        as (st' & Hrun & Hh & Hf & Hother & Hlog)
  end.
  exists st'. cbn [BitVM.db BitVM.history BitVM.history_file BitVM.shell_calls] in *.
  assert (Hp : key +:+ "_proof" <> key) by (apply derived_ne_key; discriminate).
  assert (Ht : key +:+ "_tree" <> key) by (apply derived_ne_key; discriminate).
  assert (Hl : key +:+ "_log" <> key) by (apply derived_ne_key; discriminate).
  assert (Hpt : key +:+ "_proof" <> key +:+ "_tree")
    by (apply derived_ne_derived; discriminate).
  assert (Hpl : key +:+ "_proof" <> key +:+ "_log")
    by (apply derived_ne_derived; discriminate).
  assert (Htl : key +:+ "_tree" <> key +:+ "_log")
    by (apply derived_ne_derived; discriminate).
  split; [exact Hrun|]. split; [exact Hh|]. split; [exact Hf|].
  split; [|split; [|split; [|split]]].
  - rewrite Hother by congruence.
    rewrite lookup_insert_ne by congruence. rewrite lookup_insert_ne by congruence.
    apply lookup_insert_eq.
  - rewrite Hother by congruence.
    rewrite lookup_insert_ne by congruence. apply lookup_insert_eq.
  - rewrite Hother by congruence. apply lookup_insert_eq.
  - intros k Hk Hd. rewrite elem_of_derived_keys in Hd.
    rewrite Hother by tauto.
    rewrite !lookup_insert_ne by (intros E; subst; tauto). reflexivity.
  - destruct Hlog as [Hlog|Hlog]; [left|right; exact Hlog].
    rewrite Hlog. rewrite !lookup_insert_ne by congruence. reflexivity.
Qed.

End Processing.

(** ** One pass of the watcher *)

Section Watcher.

Variable env : BitVM.Env.


Lemma watch_tick_cons (f : string) (rest : list string) (st : BitVM.Store)
    (file : BitVM.DbFile) :
  BitVM.db st !! f = Some file ->
  BitVM.watch_tick env (f :: rest) st
  = match file with
    | BitVM.BlockFile block =>
        if BitVM.eligible file then
          match BitVM.process_challenge env block f st with
          | (st1, Ok _) => BitVM.watch_tick env rest st1
          | (st1, Raise e) => (st1, Raise e)
          end
        else BitVM.watch_tick env rest st
    | _ => BitVM.watch_tick env rest st
    end.
Proof.
  intros H. cbn [BitVM.watch_tick]. unfold BitVM.mbind at 1. unfold BitVM.read_file.
  rewrite H. destruct file as [block| | |]; try reflexivity.
  unfold BitVM.mbind at 1.
  destruct (BitVM.eligible (BitVM.BlockFile block)); [|reflexivity].
  destruct (BitVM.process_challenge env block f st) as [st1 [[]|e]]; reflexivity.
Qed.



End Watcher.

(** ** C1: the order of [step_chain] against the order of the chain check *)

Lemma step_chain_forward_linked (seed : list byte) (steps : Z) :
  linked (rev (PSBTgen.step_chain seed steps)).
Proof.
  unfold PSBTgen.step_chain. rewrite rev_involutive.
  apply step_chain_loop_linked; [discriminate|].
  intros [|i] a b Ha Hb; discriminate.
Qed.

Lemma sha256_length (msg : list byte) : List.length (sha256 msg) = 32%nat.
Proof.
  unfold sha256, SHA256.digest, SHA256.digest_of. rewrite !length_app. reflexivity.
Qed.

Lemma step_chain_loop_extends (steps : nat) (chain : list (list byte)) :
  exists tail, PSBTgen.step_chain_loop steps chain = chain ++ tail.
Proof.
  revert chain. induction steps as [|n IH]; intros chain; cbn [PSBTgen.step_chain_loop].
  - exists []. symmetry. apply app_nil_r.
  - destruct (IH (chain ++ [sha256 (List.last chain [])])) as [tail Ht].
    eexists. rewrite Ht, <- app_assoc. reflexivity.
Qed.

Lemma hex_texts_decode (chain : list (list byte)) :
  Forall (fun s => is_Some (fromhex s)) (List.map hex chain).
Proof.
  induction chain as [|a chain IH]; constructor; [|exact IH].
  rewrite fromhex_hex. eauto.
Qed.

(** The chain check on canonical hex text is the hash relation on the bytes. *)
Lemma chain_verified_hex (chain : list (list byte)) :
  BitVM.chain_verified (List.map hex chain) = Ok true <-> linked chain.
Proof. rewrite chain_verified_check, chain_check_true, linked_hex. reflexivity. Qed.

(** In the order [step_chain] returns it, a chain of at least one step over
    a seed that is not 32 bytes long never passes the chain check: its last
    pair would make the seed a SHA-256 digest. *)
Lemma build_order_rejected (seed : list byte) (steps : Z) :
  1 <= steps ->
  List.length seed <> 32%nat ->
  BitVM.chain_verified (List.map hex (PSBTgen.step_chain seed steps)) = Ok false.
Proof.
  intros Hsteps Hseed.
  destruct (chain_check_returns _ (hex_texts_decode (PSBTgen.step_chain seed steps)))
    as [[|] Hv]; rewrite chain_verified_check; [exfalso | exact Hv].
  rewrite <- chain_verified_check in Hv. apply chain_verified_hex in Hv.
  unfold PSBTgen.step_chain in Hv.
  destruct (Z.to_nat steps) as [|n] eqn:Hn; [lia|].
  cbn [PSBTgen.step_chain_loop] in Hv.
  destruct (step_chain_loop_extends n ([seed] ++ [sha256 (List.last [seed] [])]))
    as [tail Ht].
  rewrite Ht in Hv. cbn [List.last app] in Hv.
  change (seed :: sha256 seed :: tail) with ([seed; sha256 seed] ++ tail) in Hv.
  rewrite rev_app_distr in Hv. cbn [rev app] in Hv.
  apply Hseed. rewrite <- (sha256_length (sha256 seed)). f_equal. symmetry.
  apply (Hv (List.length (rev tail))).
  - rewrite lookup_app_r by lia. rewrite Nat.sub_diag. reflexivity.
  - rewrite lookup_app_r by lia.
    replace (S (List.length (rev tail)) - List.length (rev tail))%nat with 1%nat by lia.
    reflexivity.
Qed.

Lemma scenario_chain_unverified :
  BitVM.chain_verified (List.map hex (PSBTgen.step_chain (encode "init") 3)) = Ok false.
Proof. vm_compute. reflexivity. Qed.

(** C1, as stated, fails: for the seed [b'init'] and 3 steps the chain in
    the order [step_chain] returns it does not pass the chain check. *)
Lemma C1_build_order_rejected :
  (3 >= 1)%Z
  /\ BitVM.chain_verified (List.map hex (PSBTgen.step_chain (encode "init") 3)) <> Ok true.
Proof. split; [lia|]. rewrite scenario_chain_unverified. discriminate. Qed.

(** C1, amended: for every seed and step count the chain check succeeds on
    the reverse of the chain [step_chain] returns (seed first); the order in
    which the chain is returned is the reverse of the order that is checked. *)
Theorem C1_reversed_build_verifies (seed : list byte) (steps : Z) :
  BitVM.chain_verified (List.map hex (rev (PSBTgen.step_chain seed steps))) = Ok true.
Proof.
  rewrite chain_verified_check. apply chain_check_true.
  apply linked_hex, step_chain_forward_linked.
Qed.

(** ** C2: what the chain check computes *)

(** C2: on a chain of hex texts the check returns true exactly when every
    adjacent pair, in stored order, satisfies the hash relation, and false
    exactly when some adjacent pair violates it; it is a function of the
    chain alone, and running it leaves the store as it was. *)
Theorem C2_chain_verified_iff (step_data : list string) :
  Forall (fun s => is_Some (fromhex s)) step_data ->
  (BitVM.chain_verified step_data = Ok true
   <-> forall i a b, step_data !! i = Some a -> step_data !! S i = Some b -> hash_rel a b)
  /\ (BitVM.chain_verified step_data = Ok false
      <-> exists i a b,
            step_data !! i = Some a /\ step_data !! S i = Some b /\ ~ hash_rel a b)
  /\ (forall st : BitVM.Store,
        fst (BitVM.lift (BitVM.chain_verified step_data) st) = st).
Proof.
  intros HF. rewrite chain_verified_check. split; [apply chain_check_true|].
  split; [|reflexivity]. split; [apply chain_check_false|].
  intros (i & a & b & Ha & Hb & Hn).
  destruct (chain_check_returns step_data HF) as [[|] Hv]; [|exact Hv].
  exfalso. apply Hn. exact (proj1 (chain_check_true step_data) Hv i a b Ha Hb).
Qed.

Lemma C2_chain_verified_iff_witness :
  Forall (fun s => is_Some (fromhex s)) ["00"%string; "11"%string]
  /\ (BitVM.chain_verified ["00"%string; "11"%string] = Ok false
      <-> exists i a b,
            ["00"%string; "11"%string] !! i = Some a
            /\ ["00"%string; "11"%string] !! S i = Some b /\ ~ hash_rel a b).
Proof.
  assert (HF : Forall (fun s => is_Some (fromhex s)) ["00"%string; "11"%string])
    by (repeat constructor; eexists; reflexivity).
  split; [exact HF|].
  exact (proj1 (proj2 (C2_chain_verified_iff ["00"%string; "11"%string] HF))).
Defined.

(** ** C9: chains with fewer than two items *)

Lemma short_chain_processed (env : BitVM.Env) (block : BitVM.Block) (key : string)
    (st : BitVM.Store) :
  (List.length (default [] (BitVM.step_chain block)) < 2)%nat ->
  BitVM.chain_verified (default [] (BitVM.step_chain block)) = Ok true
  /\ exists st',
       BitVM.process_challenge env block key st = (st', Ok tt)
       /\ BitVM.db st' !! key = Some (BitVM.BlockFile (BitVM.set_proof block true)).
Proof.
  intros Hlen.
  assert (Hv : BitVM.chain_verified (default [] (BitVM.step_chain block)) = Ok true)
    by (rewrite chain_verified_check; apply chain_check_short, Hlen).
  split; [exact Hv|].
  destruct (process_challenge_spec env block key st true Hv) as (st' & Hrun & _ & _ & Hk & _).
  exists st'. auto.
Qed.

(** C9: a block whose [step_chain] has fewer than two items (or none) is
    verified vacuously: the check returns true, [process_challenge] returns
    without raising, and the block is stored with [proof_verified] and
    [proof_generated] both true. *)
Theorem C9_short_chain_accepted (env : BitVM.Env) (block : BitVM.Block) (key : string)
    (st : BitVM.Store) :
  (List.length (default [] (BitVM.step_chain block)) < 2)%nat ->
  BitVM.chain_verified (default [] (BitVM.step_chain block)) = Ok true
  /\ exists st' block',
       BitVM.process_challenge env block key st = (st', Ok tt)
       /\ BitVM.db st' !! key = Some (BitVM.BlockFile block')
       /\ BitVM.proof_verified block' = Some true
       /\ BitVM.proof_generated block' = Some true
       /\ BitVM.step_chain block' = BitVM.step_chain block.
Proof.
  intros Hlen. destruct (short_chain_processed env block key st Hlen) as (Hv & st' & Hrun & Hk).
  split; [exact Hv|]. exists st', (BitVM.set_proof block true). auto.
Qed.

Lemma C9_short_chain_accepted_witness :
  (List.length (default [] (BitVM.step_chain single_item_block)) < 2)%nat
  /\ BitVM.chain_verified (default [] (BitVM.step_chain single_item_block)) = Ok true.
Proof.
  assert (H : (List.length (default [] (BitVM.step_chain single_item_block)) < 2)%nat)
    by (cbn; lia).
  split; [exact H|].
  exact (proj1 (C9_short_chain_accepted offline_env single_item_block "00" empty_store H)).
Defined.

(** ** C4: one pass of the watcher over the store *)

Lemma str_length_app (a b : string) :
  String.length (a +:+ b) = (String.length a + String.length b)%nat.
Proof.
  induction a as [|c a IH]; [reflexivity|].
  change (S (String.length (a +:+ b)) = S (String.length a + String.length b)).
  rewrite IH. reflexivity.
Qed.

(** Stores whose block records all live under keys of one length, as the
    16-character content ids are, keep their artifacts apart. *)
Lemma artifacts_apart_of_length (n : nat) (m : gmap string BitVM.DbFile) :
  (forall k block, m !! k = Some (BitVM.BlockFile block) -> String.length k = n) ->
  artifacts_apart m.
Proof.
  intros Hlen key block key' block' Hkey _ Hd Hb.
  apply Hlen in Hkey. apply Hlen in Hb.
  rewrite elem_of_derived_keys in Hd.
  destruct Hd as [-> | [-> | ->]]; rewrite str_length_app in Hb; cbn in Hb; lia.
Qed.






(** ** C6: storing a block *)

Lemma pin_to_ipfs_returns (env : BitVM.Env) (handle : string) (st : BitVM.Store) :
  BitVM.pin_to_ipfs env handle st = (st, Ok tt).
Proof.
  unfold BitVM.pin_to_ipfs, BitVM.try_except, BitVM.mbind, BitVM.lift, BitVM.ret.
  destruct (BitVM.ipfs_pin_add env handle); [|reflexivity].
  destruct (BitVM.cluster_post env handle); reflexivity.
Qed.

Lemma store_rollup_block_spec (env : BitVM.Env) (block_data : BitVM.Block)
    (block_id : option string) (st : BitVM.Store) :
  exists st',
    BitVM.store_rollup_block env block_data block_id st
    = (st', Ok (str_or block_id (BitVM.content_id env block_data)))
    /\ BitVM.db st'
       = <[str_or block_id (BitVM.content_id env block_data) := BitVM.BlockFile block_data]>
           (BitVM.db st)
    /\ BitVM.history st'
       = BitVM.history st
         ++ (if BitVM.which_ipfs env then [commit_entry env block_data] else []).
Proof.
  unfold BitVM.store_rollup_block. unfold BitVM.mbind at 1.
  destruct (BitVM.which_ipfs env).
  - unfold BitVM.mbind at 1. rewrite pin_to_ipfs_returns.
    eexists. split; [reflexivity|]. split; reflexivity.
  - eexists. split; [reflexivity|]. split; [reflexivity|].
    cbn. symmetry. apply app_nil_r.
Qed.

(** C6, as stated, fails in its second part: with the [ipfs] executable
    present and both the local pin and the cluster request failing, an entry
    is appended to the history all the same. *)
Lemma C6_entry_appended_without_pin :
  ~ pin_succeeds unpinned_env (BitVM.ipfs_add unpinned_env BitVM.empty_block)
  /\ BitVM.history
       (fst (BitVM.store_rollup_block unpinned_env BitVM.empty_block None empty_store))
     = [commit_entry unpinned_env BitVM.empty_block].
Proof.
  split.
  - intros [H _]. discriminate H.
  - destruct (store_rollup_block_spec unpinned_env BitVM.empty_block None empty_store)
      as (st' & Hrun & _ & Hh).
    rewrite Hrun. exact Hh.
Qed.

(** C6, amended: for every block, id and outcome of the collaborators,
    [store_rollup_block] returns the id and the block record is written
    under it, so a failure of the pinning collaborator never prevents the
    local write; and one entry, holding the handle [ipfs add] printed and
    the clock reading, is appended to the history exactly when the [ipfs]
    executable is found, whether pinning then succeeds or fails. *)
Theorem C6_store_writes_locally (env : BitVM.Env) (block_data : BitVM.Block)
    (block_id : option string) (st : BitVM.Store) :
  exists st' id,
    BitVM.store_rollup_block env block_data block_id st = (st', Ok id)
    /\ id = str_or block_id (BitVM.content_id env block_data)
    /\ BitVM.db st' !! id = Some (BitVM.BlockFile block_data)
    /\ (forall k, k <> id -> BitVM.db st' !! k = BitVM.db st !! k)
    /\ BitVM.history st'
       = BitVM.history st
         ++ (if BitVM.which_ipfs env then [commit_entry env block_data] else []).
Proof.
  destruct (store_rollup_block_spec env block_data block_id st) as (st' & Hrun & Hdb & Hh).
  exists st', (str_or block_id (BitVM.content_id env block_data)).
  split; [exact Hrun|]. split; [reflexivity|]. rewrite Hdb.
  split; [apply lookup_insert_eq|]. split; [|exact Hh].
  intros k Hk. apply lookup_insert_ne. congruence.
Qed.

(** ** C10: fetching a block from the content store *)

Lemma str_take_idem (n : nat) (s : string) : str_take n (str_take n s) = str_take n s.
Proof.
  revert s. induction n as [|n IH]; intros [|c s]; cbn; try reflexivity.
  rewrite IH. reflexivity.
Qed.

Lemma str_or_content_id (env : BitVM.Env) (block_data : BitVM.Block) :
  str_or (Some (BitVM.content_id env block_data)) (BitVM.content_id env block_data)
  = BitVM.content_id env block_data.
Proof.
  unfold str_or. destruct (String.eqb (BitVM.content_id env block_data) ""); reflexivity.
Qed.

Lemma fetch_from_ipfs_spec (env : BitVM.Env) (handle : string) (st : BitVM.Store) :
  match BitVM.ipfs_get env handle with
  | Ok block_data =>
      exists st',
        BitVM.fetch_from_ipfs env handle st = (st', Ok block_data)
        /\ BitVM.db st'
           = <[BitVM.content_id env block_data := BitVM.BlockFile block_data]> (BitVM.db st)
  | Raise _ => BitVM.fetch_from_ipfs env handle st = (st, Ok BitVM.empty_block)
  end.
Proof.
  unfold BitVM.fetch_from_ipfs, BitVM.try_except. unfold BitVM.mbind at 1. unfold BitVM.lift.
  destruct (BitVM.ipfs_get env handle) as [block_data|e]; [|reflexivity].
  unfold BitVM.mbind at 1.
  destruct (store_rollup_block_spec env block_data
              (Some (BitVM.content_id env block_data)) st) as (st' & Hrun & Hdb & _).
  rewrite str_or_content_id in Hrun, Hdb. rewrite Hrun.
  exists st'. split; [reflexivity | exact Hdb].
Qed.

(** C10: [fetch_from_ipfs] never raises. When the content store delivers a
    record, the record is stored under the 16-character prefix of the hex
    SHA-256 of its JSON encoding and returned; when that prefix differs from
    the first 16 characters of the requested handle, nothing is stored
    under the handle or under its prefix, so a [load_block] by either that
    failed before still fails with [FileNotFoundError]. When the fetch
    fails, the empty mapping is returned and the store is unchanged. *)
Theorem C10_fetch_stores_under_content_id (env : BitVM.Env) (handle : string)
    (st : BitVM.Store) :
  (exists st' block, BitVM.fetch_from_ipfs env handle st = (st', Ok block))
  /\ (forall block_data,
        BitVM.ipfs_get env handle = Ok block_data ->
        exists st',
          BitVM.fetch_from_ipfs env handle st = (st', Ok block_data)
          /\ BitVM.content_id env block_data
             = str_take 16 (hexdigest (encode (BitVM.json_dumps env block_data)))
          /\ BitVM.load_block (BitVM.content_id env block_data) st'
             = (st', Ok (BitVM.BlockFile block_data))
          /\ (str_take 16 handle <> BitVM.content_id env block_data ->
              forall k, k = handle \/ k = str_take 16 handle ->
                BitVM.db st' !! k = BitVM.db st !! k
                /\ (BitVM.db st !! k = None ->
                    BitVM.load_block k st' = (st', Raise FileNotFoundError))))
  /\ (forall e,
        BitVM.ipfs_get env handle = Raise e ->
        BitVM.fetch_from_ipfs env handle st = (st, Ok BitVM.empty_block)).
Proof.
  pose proof (fetch_from_ipfs_spec env handle st) as Hspec.
  destruct (BitVM.ipfs_get env handle) as [block_data|e].
  - destruct Hspec as (st' & Hrun & Hdb).
    split; [eauto|]. split; [|intros e He; discriminate He].
    intros b Hb. injection Hb as <-. exists st'.
    split; [exact Hrun|]. split; [reflexivity|]. split.
    + unfold BitVM.load_block, BitVM.read_file. rewrite Hdb, lookup_insert_eq. reflexivity.
    + intros Hne k Hk.
      assert (Hk' : BitVM.content_id env block_data <> k).
      { intros <-. destruct Hk as [Hk|Hk].
        - apply Hne. rewrite <- Hk. unfold BitVM.content_id. apply str_take_idem.
        - apply Hne. symmetry. exact Hk. }
      assert (Hsame : BitVM.db st' !! k = BitVM.db st !! k)
        by (rewrite Hdb; apply lookup_insert_ne; exact Hk').
      split; [exact Hsame|]. intros Hnone.
      unfold BitVM.load_block, BitVM.read_file. rewrite Hsame, Hnone. reflexivity.
  - split; [eauto|]. split; [intros b Hb; discriminate Hb|].
    intros e' _. exact Hspec.
Qed.

Lemma C10_fetch_stores_under_content_id_witness :
  BitVM.ipfs_get fetching_env "QmHandle" = Ok BitVM.empty_block
  /\ str_take 16 "QmHandle" <> BitVM.content_id fetching_env BitVM.empty_block
  /\ exists st',
       BitVM.fetch_from_ipfs fetching_env "QmHandle" empty_store
       = (st', Ok BitVM.empty_block)
       /\ BitVM.load_block "QmHandle" st' = (st', Raise FileNotFoundError).
Proof.
  assert (Hget : BitVM.ipfs_get fetching_env "QmHandle" = Ok BitVM.empty_block)
    by reflexivity.
  assert (Hne : str_take 16 "QmHandle" <> BitVM.content_id fetching_env BitVM.empty_block)
    by (vm_compute; discriminate).
  split; [exact Hget|]. split; [exact Hne|].
  destruct (proj1 (proj2 (C10_fetch_stores_under_content_id fetching_env "QmHandle"
                            empty_store)) BitVM.empty_block Hget)
    as (st' & Hrun & _ & _ & Hmiss).
  exists st'. split; [exact Hrun|].
  destruct (Hmiss Hne "QmHandle"%string (or_introl eq_refl)) as [_ Hload].
  apply Hload. reflexivity.
Defined.

(** ** C5: the scan of the broadcast transaction for the commitment *)

Lemma scan_outputs_unbound_never_true (outputs : list string) :
  BitVM.scan_outputs None outputs <> Ok true.
Proof.
  induction outputs as [|script rest IH]; cbn [BitVM.scan_outputs]; [discriminate|].
  destruct (startswith "OP_RETURN" script); [discriminate | exact IH].
Qed.

Lemma scan_outputs_bound_true (c : list byte) (outputs : list string) :
  BitVM.scan_outputs (Some c) outputs = Ok true
  <-> exists script,
        script ∈ outputs /\ startswith "OP_RETURN" script = true
        /\ str_in (hex c) script = true.
Proof.
  induction outputs as [|script rest IH]; cbn [BitVM.scan_outputs].
  - split; [discriminate|]. intros (s & Hs & _). apply elem_of_nil in Hs. contradiction.
  - destruct (startswith "OP_RETURN" script) eqn:Hp.
    + destruct (str_in (hex c) script) eqn:Hc.
      * split; [|reflexivity]. intros _. exists script. split; [left|]. auto.
      * rewrite IH. split.
        -- intros (s & Hs & H). exists s. split; [right; exact Hs | exact H].
        -- intros (s & Hs & Hs1 & Hs2). apply elem_of_cons in Hs as [-> | Hs];
             [congruence|]. exists s. auto.
    + rewrite IH. split.
      * intros (s & Hs & H). exists s. split; [right; exact Hs | exact H].
      * intros (s & Hs & Hs1 & Hs2). apply elem_of_cons in Hs as [-> | Hs];
          [congruence|]. exists s. auto.
Qed.

(** C5, on the code: the scan of lines 208-216 reads [commitment] before
    lines 224/226 bind it. On a transaction whose only output is the
    OP_RETURN script carrying the hex commitment of the block, the scan
    raises [UnboundLocalError] where the claim requires true (the same scan
    with the variable bound returns true), no log file is written although
    signing and broadcast succeeded, and on no transaction at all does the
    scan return true. *)
Theorem C5_commitment_read_before_bound :
  let c := BitVM.commitment_of scenario_block in
  let outputs := ["OP_RETURN " +:+ hex c] in
  BitVM.scan_outputs None outputs = Raise (UnboundLocalError "commitment")
  /\ BitVM.scan_outputs (Some c) outputs = Ok true
  /\ (forall key st,
        snd (BitVM.sign_and_broadcast (online_env outputs) scenario_block key st)
        = Raise (UnboundLocalError "commitment")
        /\ fst (BitVM.sign_and_broadcast (online_env outputs) scenario_block key st) = st)
  /\ (forall outs, BitVM.scan_outputs None outs <> Ok true).
Proof.
  cbv zeta. split; [reflexivity|]. split; [vm_compute; reflexivity|].
  split; [|apply scan_outputs_unbound_never_true].
  intros key st. split; reflexivity.
Qed.

(** ** C3: the main output of the challenge transaction *)

Lemma prev_outpoint_ok :
  exists txid outpoint,
    lx PSBTgen.prev_txid = Ok txid /\ mkCOutPoint txid 1 = Ok outpoint.
Proof. eexists. eexists. split; vm_compute; reflexivity. Qed.




Lemma challenge_step_stops (chain : list (list byte)) (timeouts : list Z)
    (tree : list CScript) (now : float) (amount_sats fee : Z) (i : nat) (built : PSBTgen.spend) :
  PSBTgen.build_spend chain timeouts tree now amount_sats fee i = Ok built ->
  PSBTgen.challenge_step chain timeouts tree now amount_sats fee i
  = Raise (NameError "txout").
Proof. intros H. unfold PSBTgen.challenge_step. rewrite H. reflexivity. Qed.


(** ** C7: the end-to-end scenario *)

Lemma tapleaf_descriptors_length (steps : list string) :
  List.length (BitVM.tapleaf_descriptors steps) = List.length steps.
Proof. unfold BitVM.tapleaf_descriptors. apply length_imap. Qed.

Lemma scenario_chain_length : List.length PSBTgen.chain = 4%nat.
Proof.
  unfold PSBTgen.chain, PSBTgen.step_chain.
  rewrite length_rev, step_chain_loop_length. reflexivity.
Qed.

(** The loop of lines 34-48 on the chain and the timeouts of the scenario:
    step 0 finds its three items and stops at the name [OP_1]. *)
Lemma scenario_scripts_stop :
  PSBTgen.scripts_of PSBTgen.chain PSBTgen.timeouts = Raise (NameError "OP_1").
Proof. vm_compute. reflexivity. Qed.

Lemma scenario_processed (env : BitVM.Env) (key : string) :
  exists st',
    BitVM.process_challenge env scenario_block key (scenario_store key) = (st', Ok tt)
    /\ BitVM.db st' !! key = Some (BitVM.BlockFile (BitVM.set_proof scenario_block false))
    /\ BitVM.db st' !! (key +:+ "_proof")
       = Some (BitVM.ProofFile {| BitVM.proof_steps := Some (List.map hex PSBTgen.chain);
                                  BitVM.verified := false |})
    /\ BitVM.db st' !! (key +:+ "_tree")
       = Some (BitVM.TreeFile
                 {| BitVM.tapleaf_tree :=
                      BitVM.tapleaf_descriptors (List.map hex PSBTgen.chain) |})
    /\ (forall k p, BitVM.db st' !! k = Some (BitVM.ProofFile p) -> k = key +:+ "_proof")
    /\ (forall k t, BitVM.db st' !! k = Some (BitVM.TreeFile t) -> k = key +:+ "_tree").
Proof.
  destruct (process_challenge_spec env scenario_block key (scenario_store key) false
              scenario_chain_unverified)
    as (st' & Hrun & _ & _ & Hkey & Hproof & Htree & Hother & Hlog).
  exists st'. split; [exact Hrun|]. split; [exact Hkey|].
  split; [exact Hproof|]. split; [exact Htree|].
  assert (Hcases : forall k f, BitVM.db st' !! k = Some f ->
            k = key \/ k = key +:+ "_proof" \/ k = key +:+ "_tree" \/ k = key +:+ "_log").
  { intros k f Hk. destruct (decide (k = key)) as [-> | Hne]; [auto|].
    destruct (decide (k ∈ derived_keys key)) as [Hd|Hd].
    - rewrite elem_of_derived_keys in Hd. tauto.
    - rewrite (Hother k Hne Hd) in Hk. cbn [BitVM.db scenario_store] in Hk.
      rewrite lookup_singleton_ne in Hk by congruence. discriminate. }
  assert (Hlog' : forall f, BitVM.db st' !! (key +:+ "_log") = Some f ->
            exists l, f = BitVM.LogFile l).
  { intros f Hf. destruct Hlog as [Hlog|[l Hlog]].
    - rewrite Hlog in Hf. cbn [BitVM.db scenario_store] in Hf.
      rewrite lookup_singleton_ne in Hf; [discriminate|].
      intros E. symmetry in E. revert E. apply derived_ne_key. discriminate.
    - exists l. congruence. }
  split.
  - intros k p Hk. destruct (Hcases k _ Hk) as [-> | [-> | [-> | ->]]].
    + rewrite Hkey in Hk. discriminate.
    + reflexivity.
    + rewrite Htree in Hk. discriminate.
    + destruct (Hlog' _ Hk) as [l Hl]. discriminate.
  - intros k t Hk. destruct (Hcases k _ Hk) as [-> | [-> | [-> | ->]]].
    + rewrite Hkey in Hk. discriminate.
    + rewrite Hproof in Hk. discriminate.
    + reflexivity.
    + destruct (Hlog' _ Hk) as [l Hl]. discriminate.
Qed.

(** C7, as stated, fails: in the scenario the tree file written by
    [process_challenge] lists one descriptor for each of the 4 items of the
    chain, not 3. *)
Lemma C7_tree_file_has_four_descriptors :
  exists st' tree_file,
    BitVM.process_challenge offline_env scenario_block "0123456789abcdef"
      (scenario_store "0123456789abcdef") = (st', Ok tt)
    /\ BitVM.db st' !! "0123456789abcdef_tree"%string = Some (BitVM.TreeFile tree_file)
    /\ List.length (BitVM.tapleaf_tree tree_file) <> 3%nat.
Proof.
  destruct (scenario_processed offline_env "0123456789abcdef")
    as (st' & Hrun & _ & _ & Htree & _).
  eexists st', _. split; [exact Hrun|]. split; [exact Htree|].
  cbn [BitVM.tapleaf_tree]. rewrite tapleaf_descriptors_length, length_map.
  rewrite scenario_chain_length. discriminate.
Qed.

(** C7, amended: with the seed [b'init'] and 3 steps the chain has exactly
    4 items; processing the challenged block of the scenario returns
    without raising and leaves exactly one proof file and exactly one tree
    file, and the tree file lists exactly 4 descriptors, [step_0] to
    [step_3], one for each item of the chain. Nothing is said of the script
    tree of [PSBTgen.py]. *)
Theorem C7_scenario_artifacts (env : BitVM.Env) (key : string) :
  List.length PSBTgen.chain = 4%nat
  /\ exists st' proof_file tree_file,
       BitVM.process_challenge env scenario_block key (scenario_store key) = (st', Ok tt)
       /\ (forall k p, BitVM.db st' !! k = Some (BitVM.ProofFile p)
                       <-> k = key +:+ "_proof" /\ p = proof_file)
       /\ (forall k t, BitVM.db st' !! k = Some (BitVM.TreeFile t)
                       <-> k = key +:+ "_tree" /\ t = tree_file)
       /\ List.length (BitVM.tapleaf_tree tree_file) = 4%nat
       /\ List.map BitVM.name (BitVM.tapleaf_tree tree_file)
          = ["step_0"; "step_1"; "step_2"; "step_3"]%string.
Proof.
  split; [apply scenario_chain_length|].
  destruct (scenario_processed env key) as (st' & Hrun & _ & Hproof & Htree & Hp1 & Ht1).
  exists st',
    {| BitVM.proof_steps := Some (List.map hex PSBTgen.chain); BitVM.verified := false |},
    {| BitVM.tapleaf_tree := BitVM.tapleaf_descriptors (List.map hex PSBTgen.chain) |}.
  split; [exact Hrun|]. split; [|split; [|split]].
  - intros k p. split.
    + intros Hk. pose proof (Hp1 k p Hk) as ->. rewrite Hproof in Hk.
      split; [reflexivity | congruence].
    + intros [-> ->]. exact Hproof.
  - intros k t. split.
    + intros Hk. pose proof (Ht1 k t Hk) as ->. rewrite Htree in Hk.
      split; [reflexivity | congruence].
    + intros [-> ->]. exact Htree.
  - cbn [BitVM.tapleaf_tree]. rewrite tapleaf_descriptors_length, length_map.
    apply scenario_chain_length.
  - vm_compute. reflexivity.
Qed.

(** ** C8: the two outputs of the punishment transaction *)

Lemma punishment_psbt_built (txid : string) (vout : Z) (amount : float)
    (hash : list byte) (outpoint : COutPoint) (value amount0 amount1 : Z) :
  lx txid = Ok hash ->
  mkCOutPoint hash vout = Ok outpoint ->
  py_int (amount * 1e8)%float = Ok value ->
  py_int (amount * 0.9 * 1e8)%float = Ok amount0 ->
  py_int (amount * 0.1 * 1e8)%float = Ok amount1 ->
  exists psbt,
    PSBTlib.create_punishment_psbt txid vout amount = Ok psbt
    /\ List.map PSBTlib.amount (PSBTlib.outputs psbt) = [amount0; amount1]
    /\ List.map (fun i => nValue (PSBTlib.witness_utxo i)) (PSBTlib.inputs psbt) = [value]
    /\ PSBTlib.tx_prevout psbt = outpoint.
Proof.
  intros Hlx Hop Hv H0 H1. unfold PSBTlib.create_punishment_psbt.
  rewrite Hv. cbn [bind]. rewrite Hlx. cbn [bind]. rewrite Hop. cbn [bind].
  rewrite H0. cbn [bind]. rewrite H1. cbn [bind].
  eexists. split; [reflexivity|]. cbn. auto.
Qed.

Lemma punishment_amounts_at_0_7 :
  py_int (0.7 * 1e8)%float = Ok 70000000
  /\ py_int (0.7 * 0.9 * 1e8)%float = Ok 63000000
  /\ py_int (0.7 * 0.1 * 1e8)%float = Ok 6999999.
Proof. split; [|split]; vm_compute; reflexivity. Qed.

Lemma punishment_amounts_at_1 :
  py_int (1 * 1e8)%float = Ok 100000000
  /\ py_int (1 * 0.9 * 1e8)%float = Ok 90000000
  /\ py_int (1 * 0.1 * 1e8)%float = Ok 10000000.
Proof. split; [|split]; vm_compute; reflexivity. Qed.

Lemma punishment_amounts_at_0_29 :
  py_int (0.29 * 1e8)%float = Ok 28999999
  /\ py_int (0.29 * 0.9 * 1e8)%float = Ok 26100000
  /\ py_int (0.29 * 0.1 * 1e8)%float = Ok 2900000.
Proof. split; [|split]; vm_compute; reflexivity. Qed.

(** C8, on the code: the three values are three separate binary64
    products, each truncated on its own, so the split the code sets out to
    make comes out a satoshi off. For the amount 1 the outputs are 90000000
    and 10000000, the 90% and 10% of the 100000000 spent. For the amount 0.7
    the transaction spends 70000000 and pays 63000000 and 6999999: the
    second output is not 10% of the input and one satoshi is left over. For
    the amount 0.29 it spends 28999999 and pays 26100000 and 2900000, one
    satoshi more than it spends. *)
Theorem C8_split_off_by_one_satoshi :
  (exists psbt,
     PSBTlib.create_punishment_psbt PSBTgen.prev_txid 1 1 = Ok psbt
     /\ List.map (fun i => nValue (PSBTlib.witness_utxo i)) (PSBTlib.inputs psbt)
        = [100000000]
     /\ List.map PSBTlib.amount (PSBTlib.outputs psbt) = [90000000; 10000000])
  /\ (exists psbt,
       PSBTlib.create_punishment_psbt PSBTgen.prev_txid 1 0.7 = Ok psbt
       /\ List.map (fun i => nValue (PSBTlib.witness_utxo i)) (PSBTlib.inputs psbt)
          = [70000000]
       /\ List.map PSBTlib.amount (PSBTlib.outputs psbt) = [63000000; 6999999]
       /\ 10 * 6999999 <> 70000000
       /\ 63000000 + 6999999 < 70000000)
  /\ (exists psbt,
       PSBTlib.create_punishment_psbt PSBTgen.prev_txid 1 0.29 = Ok psbt
       /\ List.map (fun i => nValue (PSBTlib.witness_utxo i)) (PSBTlib.inputs psbt)
          = [28999999]
       /\ List.map PSBTlib.amount (PSBTlib.outputs psbt) = [26100000; 2900000]
       /\ 10 * 26100000 <> 9 * 28999999
       /\ 26100000 + 2900000 > 28999999).
Proof.
  destruct prev_outpoint_ok as (hash & outpoint & Hlx & Hop).
  split; [|split].
  - destruct punishment_amounts_at_1 as (Hv & H0 & H1).
    destruct (punishment_psbt_built PSBTgen.prev_txid 1 1 hash outpoint _ _ _
                Hlx Hop Hv H0 H1) as (psbt & Hrun & Hout & Hin & _).
    exists psbt. auto.
  - destruct punishment_amounts_at_0_7 as (Hv & H0 & H1).
    destruct (punishment_psbt_built PSBTgen.prev_txid 1 0.7 hash outpoint _ _ _
                Hlx Hop Hv H0 H1) as (psbt & Hrun & Hout & Hin & _).
    exists psbt. split; [exact Hrun|]. split; [exact Hin|]. split; [exact Hout|]. lia.
  - destruct punishment_amounts_at_0_29 as (Hv & H0 & H1).
    destruct (punishment_psbt_built PSBTgen.prev_txid 1 0.29 hash outpoint _ _ _
                Hlx Hop Hv H0 H1) as (psbt & Hrun & Hout & Hin & _).
    exists psbt. split; [exact Hrun|]. split; [exact Hin|]. split; [exact Hout|]. lia.
Qed.

(** ** The chain built by [step_chain] *)

Lemma rev_reverse {A} (l : list A) : rev l = reverse l.
Proof.
  induction l as [|x l IH]; [reflexivity|].
  cbn [rev]. rewrite IH, reverse_cons. reflexivity.
Qed.

Lemma linked_rev_back_linked (chain : list (list byte)) :
  linked chain -> back_linked (rev chain).
Proof.
  intros HL i a b Ha Hb. rewrite rev_reverse in Ha, Hb.
  apply reverse_lookup_Some in Ha as [Ha Hi].
  apply reverse_lookup_Some in Hb as [Hb Hsi].
  symmetry. apply (HL (List.length chain - S (S i))%nat); [exact Hb|].
  replace (S (List.length chain - S (S i))) with (List.length chain - S i)%nat by lia.
  exact Ha.
Qed.

Lemma step_chain_loop_from_seed (steps : nat) (seed : list byte) :
  exists tail,
    PSBTgen.step_chain_loop steps [seed] = seed :: tail /\ List.length tail = steps.
Proof.
  destruct (step_chain_loop_extends steps [seed]) as [tail Ht].
  exists tail. split; [exact Ht|].
  pose proof (step_chain_loop_length steps [seed]) as Hlen.
  rewrite Ht in Hlen. cbn in Hlen. lia.
Qed.

Lemma step_chain_back_linked (seed : list byte) (steps : Z) :
  back_linked (PSBTgen.step_chain seed steps).
Proof.
  unfold PSBTgen.step_chain. apply linked_rev_back_linked.
  apply step_chain_loop_linked; [discriminate|].
  intros [|i] a b Ha Hb; discriminate.
Qed.

(** X1: [step_chain(seed, steps)] has [steps + 1] items (one item when
    [steps] is not positive), its last item is the seed, and every item
    before the last is a digest of 32 bytes that is the SHA-256 of the item
    after it. *)
Theorem X1_step_chain_shape (seed : list byte) (steps : Z) :
  List.length (PSBTgen.step_chain seed steps) = S (Z.to_nat steps)
  /\ PSBTgen.step_chain seed steps !! Z.to_nat steps = Some seed
  /\ back_linked (PSBTgen.step_chain seed steps)
  /\ (forall i a, (i < Z.to_nat steps)%nat ->
        PSBTgen.step_chain seed steps !! i = Some a -> List.length a = 32%nat).
Proof.
  pose proof (step_chain_back_linked seed steps) as HB.
  assert (HL : List.length (PSBTgen.step_chain seed steps) = S (Z.to_nat steps)).
  { unfold PSBTgen.step_chain. rewrite length_rev, step_chain_loop_length. reflexivity. }
  split; [exact HL|]. split; [|split; [exact HB|]].
  - unfold PSBTgen.step_chain.
    destruct (step_chain_loop_from_seed (Z.to_nat steps) seed) as (tail & -> & Hlen).
    cbn [rev]. apply list_lookup_middle. rewrite length_rev. lia.
  - intros i a Hi Ha.
    destruct (lookup_lt_is_Some_2 (PSBTgen.step_chain seed steps) (S i)) as [b Hb];
      [lia|].
    rewrite (HB i a b Ha Hb). apply sha256_length.
Qed.

(** ** The chain check and the chain construction *)

Lemma linked_tail (x : list byte) (chain : list (list byte)) :
  linked (x :: chain) -> linked chain.
Proof. intros HL i a b Ha Hb. exact (HL (S i) a b Ha Hb). Qed.

Lemma linked_unique (l1 l2 : list (list byte)) :
  linked l1 -> linked l2 -> head l1 = head l2 -> List.length l1 = List.length l2 ->
  l1 = l2.
Proof.
  revert l2. induction l1 as [|x l1 IH]; intros [|y l2] H1 H2 Hh Hl;
    try discriminate; [reflexivity|].
  cbn in Hh. injection Hh as ->. f_equal.
  apply IH; [eapply linked_tail, H1 | eapply linked_tail, H2 | | cbn in Hl; lia].
  destruct l1 as [|a l1], l2 as [|b l2]; try discriminate; [reflexivity|].
  cbn. f_equal.
  rewrite <- (H1 0%nat y a eq_refl eq_refl). exact (H2 0%nat y b eq_refl eq_refl).
Qed.

(** X2: a non-empty chain of canonical hex text passes the chain check
    exactly when it is the reverse of what [step_chain] builds from its
    first item in one step fewer than it has items. *)
Theorem X2_verified_iff_reversed_build (first : list byte) (rest : list (list byte)) :
  BitVM.chain_verified (List.map hex (first :: rest)) = Ok true
  <-> first :: rest = rev (PSBTgen.step_chain first (Z.of_nat (List.length rest))).
Proof.
  rewrite chain_verified_hex. unfold PSBTgen.step_chain.
  rewrite rev_involutive, Nat2Z.id.
  assert (HF : linked (PSBTgen.step_chain_loop (List.length rest) [first])).
  { apply step_chain_loop_linked; [discriminate|].
    intros [|i] a b Ha Hb; discriminate. }
  split.
  - intros HL. apply linked_unique; [exact HL | exact HF | |].
    + destruct (step_chain_loop_from_seed (List.length rest) first) as (tail & -> & _).
      reflexivity.
    + rewrite step_chain_loop_length. cbn. lia.
  - intros ->. exact HF.
Qed.

(** X3: replacing any item but the first of a chain that passes the check
    by different bytes makes the check return false. *)
Theorem X3_tampering_detected (chain : list (list byte)) (j : nat) (old new : list byte) :
  BitVM.chain_verified (List.map hex chain) = Ok true ->
  (1 <= j)%nat ->
  chain !! j = Some old ->
  new <> old ->
  BitVM.chain_verified (List.map hex (<[j := new]> chain)) = Ok false.
Proof.
  intros Hv Hj Hold Hne. apply chain_verified_hex in Hv.
  destruct (chain_check_returns _ (hex_texts_decode (<[j := new]> chain)))
    as [[|] Hc]; rewrite chain_verified_check; [exfalso | exact Hc].
  rewrite <- chain_verified_check in Hc. apply chain_verified_hex in Hc.
  destruct j as [|i]; [lia|].
  assert (Hlt : (S i < List.length chain)%nat) by (apply lookup_lt_is_Some; eauto).
  destruct (lookup_lt_is_Some_2 chain i) as [a Ha]; [lia|].
  apply Hne. rewrite <- (Hv i a old Ha Hold). symmetry.
  apply (Hc i a new).
  - rewrite list_lookup_insert_ne by lia. exact Ha.
  - apply list_lookup_insert_eq. exact Hlt.
Qed.

Lemma X3_tampering_detected_witness :
  BitVM.chain_verified
    (List.map hex (<[1%nat := encode "x"]> [encode "a"; sha256 (encode "a")])) = Ok false.
Proof.
  apply (X3_tampering_detected [encode "a"; sha256 (encode "a")] 1
           (sha256 (encode "a")) (encode "x")).
  - vm_compute. reflexivity.
  - lia.
  - reflexivity.
  - vm_compute. discriminate.
Defined.

Lemma hex_length (bs : list byte) : String.length (hex bs) = (2 * List.length bs)%nat.
Proof.
  induction bs as [|b bs IH]; [reflexivity|].
  cbn [hex List.length]. rewrite str_length_app, IH. cbn. lia.
Qed.

Lemma hexdigest_length (msg : list byte) : String.length (hexdigest msg) = 64%nat.
Proof. unfold hexdigest. rewrite hex_length, sha256_length. reflexivity. Qed.

(** X4: in a chain that passes the check every item but the first is the
    lower-case hex text [hex digest] of a 32-byte digest, 64 characters
    long. *)
Theorem X4_verified_items_are_digests (step_data : list string) (i : nat) (b : string) :
  BitVM.chain_verified step_data = Ok true ->
  step_data !! S i = Some b ->
  String.length b = 64%nat
  /\ exists digest, b = hex digest /\ List.length digest = 32%nat.
Proof.
  intros Hv Hb. rewrite chain_verified_check in Hv.
  destruct (lookup_lt_is_Some_2 step_data i) as [a Ha];
    [apply lookup_lt_Some in Hb; lia|].
  destruct (proj1 (chain_check_true step_data) Hv i a b Ha Hb) as (p & _ & <-).
  split; [apply hexdigest_length|].
  exists (sha256 p). split; [reflexivity | apply sha256_length].
Qed.

Lemma X4_verified_items_are_digests_witness :
  String.length (hexdigest (encode "rollup_state")) = 64%nat.
Proof.
  apply (X4_verified_items_are_digests
           [hex (encode "rollup_state"); hexdigest (encode "rollup_state")] 0).
  - vm_compute. reflexivity.
  - reflexivity.
Defined.

(** X5: the check composes over concatenation: a chain made of two parts
    passes exactly when both parts pass and the last item of the first part
    is hash-related to the first item of the second. *)
Theorem X5_chain_check_app (l1 l2 : list string) :
  BitVM.chain_verified (l1 ++ l2) = Ok true
  <-> BitVM.chain_verified l1 = Ok true
      /\ BitVM.chain_verified l2 = Ok true
      /\ (forall a b, last l1 = Some a -> head l2 = Some b -> hash_rel a b).
Proof.
  rewrite !chain_verified_check, !chain_check_true. split.
  - intros H. split; [|split].
    + intros i a b Ha Hb. apply (H i).
      * rewrite lookup_app_l by (apply lookup_lt_Some in Ha; lia). exact Ha.
      * rewrite lookup_app_l by (apply lookup_lt_Some in Hb; lia). exact Hb.
    + intros i a b Ha Hb. apply (H (List.length l1 + i)%nat).
      * rewrite lookup_app_r by lia.
        replace (List.length l1 + i - List.length l1)%nat with i by lia. exact Ha.
      * rewrite lookup_app_r by lia.
        replace (S (List.length l1 + i) - List.length l1)%nat with (S i) by lia. exact Hb.
    + intros a b Ha Hb. rewrite last_lookup in Ha. rewrite head_lookup in Hb.
      assert (Hlen : (0 < List.length l1)%nat) by (destruct l1; [discriminate | cbn; lia]).
      apply (H (pred (List.length l1))).
      * rewrite lookup_app_l by lia. exact Ha.
      * rewrite lookup_app_r by lia.
        replace (S (pred (List.length l1)) - List.length l1)%nat with 0%nat by lia.
        exact Hb.
  - intros (H1 & H2 & HJ) i a b Ha Hb.
    destruct (decide (S i < List.length l1)%nat) as [Hlt|Hge].
    + rewrite lookup_app_l in Ha by lia. rewrite lookup_app_l in Hb by lia. eauto.
    + destruct (decide (i < List.length l1)%nat) as [Hi|Hi].
      * rewrite lookup_app_l in Ha by lia. rewrite lookup_app_r in Hb by lia.
        replace (S i - List.length l1)%nat with 0%nat in Hb by lia.
        apply HJ.
        -- rewrite last_lookup. replace (pred (List.length l1)) with i by lia. exact Ha.
        -- rewrite head_lookup. exact Hb.
      * rewrite lookup_app_r in Ha by lia. rewrite lookup_app_r in Hb by lia.
        replace (S i - List.length l1)%nat with (S (i - List.length l1)) in Hb by lia.
        eauto.
Qed.

(** ** The step scripts of [PSBTgen.py] *)

Lemma scripts_of_step_0 (chain : list (list byte)) (timeouts : list Z) :
  (2 <= List.length chain)%nat ->
  PSBTgen.scripts_of chain timeouts
  = match PSBTgen.step_script PSBTgen.OP_1_binding chain timeouts 0 with
    | Ok _ => PSBTgen.scripts_of chain timeouts
    | Raise e => Raise e
    end.
Proof.
  intros Hlen. unfold PSBTgen.scripts_of at 1.
  destruct (List.length chain - 1)%nat as [|n] eqn:Hn; [lia|].
  cbn [seq PSBTgen.scripts_loop].
  destruct (PSBTgen.step_script PSBTgen.OP_1_binding chain timeouts 0) as [s|e] eqn:Hs;
    [|reflexivity].
  unfold PSBTgen.scripts_of. rewrite Hn. cbn [seq PSBTgen.scripts_loop].
  rewrite Hs. reflexivity.
Qed.

(** X6: the loop of lines 34-48 never yields a script. For a chain of two
    or more items it stops in step 0: with [IndexError] when there is no
    timeout at all, and otherwise with [NameError], at the name [OP_1]
    that the module does not import, whatever the chain and the timeouts
    hold. Only a chain of fewer than two items gets through the loop, and
    then no script is made. *)
Theorem X6_step_scripts_are_never_built (chain : list (list byte)) (timeouts : list Z) :
  ((List.length chain <= 1)%nat -> PSBTgen.scripts_of chain timeouts = Ok [])
  /\ ((2 <= List.length chain)%nat -> timeouts = [] ->
      PSBTgen.scripts_of chain timeouts = Raise IndexError)
  /\ ((2 <= List.length chain)%nat -> timeouts <> [] ->
      PSBTgen.scripts_of chain timeouts = Raise (NameError "OP_1"))
  /\ (forall scripts, PSBTgen.scripts_of chain timeouts = Ok scripts -> scripts = []).
Proof.
  assert (Hshort : (List.length chain <= 1)%nat -> PSBTgen.scripts_of chain timeouts = Ok []).
  { intros Hlen. unfold PSBTgen.scripts_of.
    replace (List.length chain - 1)%nat with 0%nat by lia. reflexivity. }
  assert (Hstep : (2 <= List.length chain)%nat ->
            exists c e, chain !! 1%nat = Some c /\ chain !! 0%nat = Some e).
  { intros Hlen. destruct chain as [|e [|c chain]]; cbn in Hlen; try lia.
    exists c, e. split; reflexivity. }
  assert (Hnone : (2 <= List.length chain)%nat -> timeouts = [] ->
            PSBTgen.scripts_of chain timeouts = Raise IndexError).
  { intros Hlen ->. rewrite scripts_of_step_0 by exact Hlen.
    destruct (Hstep Hlen) as (c & e & Hc & He).
    unfold PSBTgen.step_script. rewrite Hc, He. reflexivity. }
  assert (Hsome : (2 <= List.length chain)%nat -> timeouts <> [] ->
            PSBTgen.scripts_of chain timeouts = Raise (NameError "OP_1")).
  { intros Hlen Ht. rewrite scripts_of_step_0 by exact Hlen.
    destruct (Hstep Hlen) as (c & e & Hc & He).
    destruct timeouts as [|t timeouts]; [congruence|].
    unfold PSBTgen.step_script. rewrite Hc, He. reflexivity. }
  split; [exact Hshort|]. split; [exact Hnone|]. split; [exact Hsome|].
  intros scripts Hrun.
  destruct (decide (List.length chain <= 1)%nat) as [Hlen|Hlen].
  - rewrite (Hshort Hlen) in Hrun. congruence.
  - destruct timeouts as [|t timeouts].
    + rewrite Hnone in Hrun by (lia || reflexivity). discriminate.
    + rewrite Hsome in Hrun by (lia || discriminate). discriminate.
Qed.

Lemma X6_step_scripts_are_never_built_witness :
  PSBTgen.scripts_of PSBTgen.chain PSBTgen.timeouts = Raise (NameError "OP_1")
  /\ PSBTgen.scripts_of PSBTgen.chain [] = Raise IndexError
  /\ PSBTgen.scripts_of [encode "init"] PSBTgen.timeouts = Ok [].
Proof.
  split; [|split].
  - apply (proj1 (proj2 (proj2 (X6_step_scripts_are_never_built
                                  PSBTgen.chain PSBTgen.timeouts)))).
    + rewrite scenario_chain_length. lia.
    + discriminate.
  - apply (proj1 (proj2 (X6_step_scripts_are_never_built PSBTgen.chain []))).
    + rewrite scenario_chain_length. lia.
    + reflexivity.
  - apply (proj1 (X6_step_scripts_are_never_built [encode "init"] PSBTgen.timeouts)).
    cbn. lia.
Defined.

(** ** What a pass of the watcher writes *)

Lemma store_extends_refl (st : BitVM.Store) : store_extends st st.
Proof. repeat split; eauto. Qed.

Lemma store_extends_trans (st1 st2 st3 : BitVM.Store) :
  store_extends st1 st2 -> store_extends st2 st3 -> store_extends st1 st3.
Proof.
  intros (Hh & Hf & Hk & Hb) (Hh' & Hf' & Hk' & Hb').
  split; [congruence|]. split; [congruence|]. split; [auto|].
  intros k b Hkb. destruct (Hb' k b Hkb) as [b2 H2]. eauto.
Qed.

Lemma process_challenge_extends (env : BitVM.Env) (block : BitVM.Block) (key : string)
    (st : BitVM.Store) :
  BitVM.db st !! key = Some (BitVM.BlockFile block) ->
  store_extends st (fst (BitVM.process_challenge env block key st)).
Proof.
  intros Hkey.
  destruct (BitVM.chain_verified (default [] (BitVM.step_chain block))) as [v|e] eqn:Hv.
  - destruct (process_challenge_spec env block key st v Hv)
      as (st' & Hrun & Hh & Hf & Hk & Hproof & Htree & Hother & Hlog).
    rewrite Hrun. cbn [fst].
    split; [exact Hh|]. split; [exact Hf|]. split.
    + intros k Hsome. destruct (decide (k = key)) as [-> | Hne]; [rewrite Hk; eauto|].
      destruct (decide (k ∈ derived_keys key)) as [Hd|Hd]; [|rewrite Hother; assumption].
      rewrite elem_of_derived_keys in Hd. destruct Hd as [-> | [-> | ->]].
      * rewrite Hproof; eauto.
      * rewrite Htree; eauto.
      * destruct Hlog as [Hlog|[l Hlog]]; rewrite Hlog; eauto.
    + intros k b' Hb'. destruct (decide (k = key)) as [-> | Hne]; [eauto|].
      destruct (decide (k ∈ derived_keys key)) as [Hd|Hd].
      * rewrite elem_of_derived_keys in Hd. destruct Hd as [-> | [-> | ->]].
        -- rewrite Hproof in Hb'. discriminate.
        -- rewrite Htree in Hb'. discriminate.
        -- destruct Hlog as [Hlog|[l Hlog]]; rewrite Hlog in Hb'; [eauto | discriminate].
      * rewrite Hother in Hb' by assumption. eauto.
  - rewrite (process_challenge_raises env block key st e Hv). apply store_extends_refl.
Qed.

Lemma watch_tick_extends (env : BitVM.Env) (files : list string) (st : BitVM.Store) :
  store_extends st (fst (BitVM.watch_tick env files st)).
Proof.
  revert st. induction files as [|f rest IH]; intros st; [apply store_extends_refl|].
  destruct (BitVM.db st !! f) as [file|] eqn:Hf.
  - rewrite (watch_tick_cons env f rest st file Hf).
    destruct file as [block|p|t|l]; try apply IH.
    destruct (BitVM.eligible (BitVM.BlockFile block)); [|apply IH].
    pose proof (process_challenge_extends env block f st Hf) as Hstep.
    destruct (BitVM.process_challenge env block f st) as [st1 [[]|e]]; cbn [fst] in *.
    + eapply store_extends_trans; [exact Hstep | apply IH].
    + exact Hstep.
  - cbn [BitVM.watch_tick]. unfold BitVM.mbind at 1. unfold BitVM.read_file.
    rewrite Hf. apply store_extends_refl.
Qed.

Lemma block_keys_16_apart (st : BitVM.Store) :
  block_keys_16 st -> artifacts_apart (BitVM.db st).
Proof. intros H. apply (artifacts_apart_of_length 16). exact H. Qed.

(** ** How passes of the watcher compose *)

Lemma watch_tick_app (env : BitVM.Env) (l1 l2 : list string) (st : BitVM.Store) :
  BitVM.watch_tick env (l1 ++ l2) st
  = match BitVM.watch_tick env l1 st with
    | (st1, Ok _) => BitVM.watch_tick env l2 st1
    | (st1, Raise e) => (st1, Raise e)
    end.
Proof.
  revert st. induction l1 as [|f l1 IH]; intros st; [reflexivity|].
  cbn [app BitVM.watch_tick]. unfold BitVM.mbind.
  destruct (BitVM.read_file f st) as [st0 [file|e]]; [|reflexivity].
  match goal with
  | |- context [match ?m st0 with _ => _ end] => destruct (m st0) as [st1 [[]|e]]
  end; [apply IH | reflexivity].
Qed.

(** X9: a challenged block on which the chain check raises (its chain
    holds text that [bytes.fromhex] rejects) stops the pass of the watcher
    with that exception: the store is left as the files listed before the
    block left it, so the block itself and every file listed after it are
    not processed. *)
Theorem X9_bad_block_stops_the_pass (env : BitVM.Env) (before after : list string)
    (f : string) (block : BitVM.Block) (st st1 : BitVM.Store) (e : py_exception) :
  BitVM.watch_tick env before st = (st1, Ok tt) ->
  BitVM.db st1 !! f = Some (BitVM.BlockFile block) ->
  BitVM.eligible (BitVM.BlockFile block) = true ->
  BitVM.chain_verified (default [] (BitVM.step_chain block)) = Raise e ->
  BitVM.watch_tick env (before ++ f :: after) st = (st1, Raise e).
Proof.
  intros Hbefore Hf He Hv. rewrite watch_tick_app, Hbefore.
  rewrite (watch_tick_cons env f after st1 _ Hf). rewrite He.
  rewrite (process_challenge_raises env block f st1 e Hv). reflexivity.
Qed.

Lemma X9_bad_block_stops_the_pass_witness :
  BitVM.watch_tick offline_env ([] ++ broken_key :: ["later"%string]) garbled_store
  = (garbled_store, Raise ValueError).
Proof.
  apply (X9_bad_block_stops_the_pass offline_env [] ["later"%string] broken_key
           garbled_block garbled_store garbled_store ValueError).
  - reflexivity.
  - apply lookup_singleton_eq.
  - reflexivity.
  - vm_compute. reflexivity.
Defined.





(** ** Block ids and the block store *)

(** X11: [pin_to_ipfs] never raises and never touches the store, whatever
    the local pin and the cluster request do: a failed local pin, an
    unreachable cluster and an answer other than 202 all end in a normal
    return. *)
Theorem X11_pin_never_raises (env : BitVM.Env) (handle : string) (st : BitVM.Store) :
  BitVM.pin_to_ipfs env handle st = (st, Ok tt).
Proof.
  unfold BitVM.pin_to_ipfs, BitVM.try_except, BitVM.mbind, BitVM.lift, BitVM.ret.
  destruct (BitVM.ipfs_pin_add env handle) as [[]|e]; [|reflexivity].
  destruct (BitVM.cluster_post env handle) as [status|e]; reflexivity.
Qed.

Lemma str_take_hex (n : nat) (bs : list byte) :
  str_take (2 * n) (hex bs) = hex (firstn n bs).
Proof.
  revert bs. induction n as [|n IH]; intros bs; [destruct bs; reflexivity|].
  destruct bs as [|b bs]; [reflexivity|].
  replace (2 * S n)%nat with (S (S (2 * n))) by lia.
  cbn [hex firstn]. unfold hex_byte.
  change (String ?a (String ?c EmptyString) +:+ ?t) with (String a (String c t)).
  cbn [str_take]. rewrite IH. reflexivity.
Qed.

Lemma content_id_hex (env : BitVM.Env) (block : BitVM.Block) :
  BitVM.content_id env block
  = hex (firstn 8 (sha256 (encode (BitVM.json_dumps env block)))).
Proof. unfold BitVM.content_id, hexdigest. apply (str_take_hex 8). Qed.

Lemma content_id_length (env : BitVM.Env) (block : BitVM.Block) :
  String.length (BitVM.content_id env block) = 16%nat.
Proof.
  rewrite content_id_hex, hex_length, length_firstn, sha256_length. reflexivity.
Qed.

(** X12: the id computed for a block is the hex text of the first 8 bytes
    of the SHA-256 of its JSON encoding: exactly 16 characters, never empty,
    and equal for blocks with equal encodings. *)
Theorem X12_content_id_format (env : BitVM.Env) (block : BitVM.Block) :
  BitVM.content_id env block
  = hex (firstn 8 (sha256 (encode (BitVM.json_dumps env block))))
  /\ String.length (BitVM.content_id env block) = 16%nat
  /\ BitVM.content_id env block <> ""%string
  /\ (forall other,
        BitVM.json_dumps env other = BitVM.json_dumps env block ->
        BitVM.content_id env other = BitVM.content_id env block).
Proof.
  split; [apply content_id_hex|]. split; [apply content_id_length|]. split.
  - intros H. pose proof (content_id_length env block) as Hl. rewrite H in Hl. discriminate.
  - intros other H. unfold BitVM.content_id. rewrite H. reflexivity.
Qed.

Lemma store_rollup_block_history_file (env : BitVM.Env) (block_data : BitVM.Block)
    (block_id : option string) (st : BitVM.Store) :
  BitVM.history_file (fst (BitVM.store_rollup_block env block_data block_id st))
  = if BitVM.which_ipfs env
    then Some (BitVM.history st ++ [commit_entry env block_data])
    else BitVM.history_file st.
Proof.
  unfold BitVM.store_rollup_block. unfold BitVM.mbind at 1.
  destruct (BitVM.which_ipfs env); [|reflexivity].
  unfold BitVM.mbind at 1. rewrite pin_to_ipfs_returns. reflexivity.
Qed.

(** X13: storing the same block twice without an id gives the same id both
    times and the second call leaves the store directory as the first left
    it (the record is overwritten by itself), while the history grows by one
    entry with every call that finds the [ipfs] executable. *)
Theorem X13_store_twice (env : BitVM.Env) (block : BitVM.Block) (st : BitVM.Store) :
  exists st1 st2 id,
    BitVM.store_rollup_block env block None st = (st1, Ok id)
    /\ BitVM.store_rollup_block env block None st1 = (st2, Ok id)
    /\ id = BitVM.content_id env block
    /\ BitVM.db st2 = BitVM.db st1
    /\ BitVM.load_block id st2 = (st2, Ok (BitVM.BlockFile block))
    /\ List.length (BitVM.history st2)
       = (List.length (BitVM.history st) + if BitVM.which_ipfs env then 2 else 0)%nat.
Proof.
  destruct (store_rollup_block_spec env block None st) as (st1 & Hrun1 & Hdb1 & Hh1).
  destruct (store_rollup_block_spec env block None st1) as (st2 & Hrun2 & Hdb2 & Hh2).
  cbn [str_or] in *.
  exists st1, st2, (BitVM.content_id env block).
  split; [exact Hrun1|]. split; [exact Hrun2|]. split; [reflexivity|].
  assert (Hdb : BitVM.db st2 = BitVM.db st1).
  { rewrite Hdb2, Hdb1. apply insert_insert_eq. }
  split; [exact Hdb|]. split.
  - unfold BitVM.load_block, BitVM.read_file. rewrite Hdb, Hdb1, lookup_insert_eq.
    reflexivity.
  - rewrite Hh2, Hh1. destruct (BitVM.which_ipfs env); rewrite !length_app; cbn; lia.
Qed.

(** X14: when the content store delivers a record whose content id is the
    first 16 characters of the requested handle, [fetch_from_ipfs] returns
    the record and a [load_block] by that prefix of the handle returns it
    too; the fetch goes through [store_rollup_block], so with the [ipfs]
    executable present it also appends an entry to the commit history. *)
Theorem X14_fetch_matching_handle (env : BitVM.Env) (handle : string)
    (block : BitVM.Block) (st : BitVM.Store) :
  BitVM.ipfs_get env handle = Ok block ->
  str_take 16 handle = BitVM.content_id env block ->
  exists st',
    BitVM.fetch_from_ipfs env handle st = (st', Ok block)
    /\ BitVM.load_block (str_take 16 handle) st' = (st', Ok (BitVM.BlockFile block))
    /\ BitVM.history st'
       = BitVM.history st ++ (if BitVM.which_ipfs env then [commit_entry env block] else []).
Proof.
  intros Hget Hmatch.
  unfold BitVM.fetch_from_ipfs, BitVM.try_except. unfold BitVM.mbind at 1.
  unfold BitVM.lift. rewrite Hget. unfold BitVM.mbind at 1.
  destruct (store_rollup_block_spec env block (Some (BitVM.content_id env block)) st)
    as (st' & Hrun & Hdb & Hh).
  rewrite str_or_content_id in Hrun, Hdb. rewrite Hrun.
  exists st'. split; [reflexivity|]. split; [|exact Hh].
  unfold BitVM.load_block, BitVM.read_file. rewrite Hmatch, Hdb, lookup_insert_eq.
  reflexivity.
Qed.

Lemma X14_fetch_matching_handle_witness :
  exists st',
    BitVM.fetch_from_ipfs fetching_env "e3b0c44298fc1c14QmRest" empty_store
    = (st', Ok BitVM.empty_block)
    /\ BitVM.load_block "e3b0c44298fc1c14" st' = (st', Ok (BitVM.BlockFile BitVM.empty_block)).
Proof.
  destruct (X14_fetch_matching_handle fetching_env "e3b0c44298fc1c14QmRest"
              BitVM.empty_block empty_store) as (st' & Hrun & Hload & _).
  - reflexivity.
  - vm_compute. reflexivity.
  - exists st'. split; [exact Hrun | exact Hload].
Defined.

(** ** Invariants over sequences of calls *)

Lemma fetch_from_ipfs_store (env : BitVM.Env) (handle : string) (st : BitVM.Store) :
  fst (BitVM.fetch_from_ipfs env handle st)
  = match BitVM.ipfs_get env handle with
    | Ok block =>
        fst (BitVM.store_rollup_block env block (Some (BitVM.content_id env block)) st)
    | Raise _ => st
    end.
Proof.
  unfold BitVM.fetch_from_ipfs, BitVM.try_except. unfold BitVM.mbind at 1.
  unfold BitVM.lift. destruct (BitVM.ipfs_get env handle) as [block|e]; [|reflexivity].
  unfold BitVM.mbind at 1.
  destruct (store_rollup_block_spec env block (Some (BitVM.content_id env block)) st)
    as (st' & Hrun & _). rewrite Hrun. reflexivity.
Qed.

Lemma store_keeps_keys_16 (env : BitVM.Env) (block : BitVM.Block) (id : option string)
    (st : BitVM.Store) :
  String.length (str_or id (BitVM.content_id env block)) = 16%nat ->
  block_keys_16 st ->
  block_keys_16 (fst (BitVM.store_rollup_block env block id st)).
Proof.
  intros Hid H16.
  destruct (store_rollup_block_spec env block id st) as (st' & Hrun & Hdb & _).
  rewrite Hrun. cbn [fst]. intros k b Hk. rewrite Hdb in Hk.
  destruct (decide (str_or id (BitVM.content_id env block) = k)) as [<- | Hne];
    [exact Hid|].
  rewrite lookup_insert_ne in Hk by exact Hne. exact (H16 k b Hk).
Qed.

Lemma run_call_keys_16 (st : BitVM.Store) (c : BitVM.Env * call) :
  is_tick (snd c) = false ->
  block_keys_16 st -> block_keys_16 (run_call st c).
Proof.
  intros Ht H16. destruct c as [env [block|handle|files]]; cbn [run_call];
    [| |discriminate Ht].
  - apply store_keeps_keys_16; [apply content_id_length | exact H16].
  - rewrite fetch_from_ipfs_store.
    destruct (BitVM.ipfs_get env handle) as [block|e]; [|exact H16].
    apply store_keeps_keys_16; [|exact H16].
    rewrite str_or_content_id. apply content_id_length.
Qed.

(** X15: starting from a store whose block records live under 16-character
    keys (the empty store is one), every sequence of calls that store
    blocks under their content ids or fetch handles, with any outcomes of
    the collaborators, leads to a store of the same kind, in which no
    derived file ([_proof], [_tree], [_log]) shares its key with a block
    record. Passes of the watcher are not among the calls. *)
Theorem X15_block_keys_invariant (calls : list (BitVM.Env * call)) (st : BitVM.Store) :
  no_tick calls = true ->
  block_keys_16 st ->
  block_keys_16 (run_calls calls st)
  /\ artifacts_apart (BitVM.db (run_calls calls st)).
Proof.
  intros Hnt H16.
  assert (H : block_keys_16 (run_calls calls st)).
  { revert st H16. induction calls as [|c calls IH]; intros st H16; [exact H16|].
    unfold no_tick in Hnt, IH. cbn [forallb] in Hnt.
    apply andb_true_iff in Hnt as [Hc Hnt].
    cbn [run_calls fold_left]. apply (IH Hnt). apply run_call_keys_16; [|exact H16].
    apply negb_true_iff. exact Hc. }
  split; [exact H | apply block_keys_16_apart, H].
Qed.

Lemma X15_block_keys_invariant_witness :
  artifacts_apart
    (BitVM.db (run_calls [(pinning_env, CallStore broken_block);
                          (pinning_env, CallFetch "QmAny"%string)] empty_store))
  /\ BitVM.db (run_calls [(pinning_env, CallStore broken_block);
                          (pinning_env, CallFetch "QmAny"%string)] empty_store)
       !! BitVM.content_id pinning_env broken_block
     = Some (BitVM.BlockFile broken_block)
  /\ BitVM.db (run_calls [(pinning_env, CallStore broken_block);
                          (pinning_env, CallFetch "QmAny"%string)] empty_store)
       !! BitVM.content_id pinning_env pinned_block
     = Some (BitVM.BlockFile pinned_block).
Proof.
  split; [|split; vm_compute; reflexivity].
  apply X15_block_keys_invariant; [reflexivity|].
  intros k block Hk. cbn [BitVM.db empty_store] in Hk.
  rewrite lookup_empty in Hk. discriminate.
Defined.

Lemma run_call_history (st : BitVM.Store) (c : BitVM.Env * call) :
  BitVM.history st `prefix_of` BitVM.history (run_call st c)
  /\ (is_tick (snd c) = false -> history_in_sync st -> history_in_sync (run_call st c)).
Proof.
  assert (Hstore : forall env block id,
            BitVM.history st
              `prefix_of` BitVM.history (fst (BitVM.store_rollup_block env block id st))
            /\ (history_in_sync st ->
                history_in_sync (fst (BitVM.store_rollup_block env block id st)))).
  { intros env block id.
    pose proof (store_rollup_block_history_file env block id st) as Hf.
    destruct (store_rollup_block_spec env block id st) as (st' & Hrun & _ & Hh).
    rewrite Hrun in Hf |- *. cbn [fst] in *. split.
    - rewrite Hh. apply prefix_app_r. reflexivity.
    - unfold history_in_sync. intros Hs. rewrite Hf, Hh.
      destruct (BitVM.which_ipfs env); [reflexivity|].
      rewrite app_nil_r. exact Hs. }
  destruct c as [env [block|handle|files]]; cbn [run_call snd is_tick].
  - destruct (Hstore env block None) as [Hp Hs]. split; [exact Hp | intros _; exact Hs].
  - rewrite fetch_from_ipfs_store.
    destruct (BitVM.ipfs_get env handle) as [block|e].
    + destruct (Hstore env block (Some (BitVM.content_id env block))) as [Hp Hs].
      split; [exact Hp | intros _; exact Hs].
    + split; [reflexivity | auto].
  - destruct (watch_tick_extends env files st) as (Hh & _).
    rewrite Hh. split; [reflexivity | discriminate].
Qed.

(** X16: [self.history] is append-only: over every sequence of calls that
    store blocks, fetch handles and run passes of the watcher, the history
    before is a prefix of the history after. Over the calls that store and
    fetch the history file follows it: if the file held the history before
    (as it does after [load_history]) it holds the history after, and
    [load_history] returns it. *)
Theorem X16_history_append_only (calls : list (BitVM.Env * call)) (st : BitVM.Store) :
  BitVM.history st `prefix_of` BitVM.history (run_calls calls st)
  /\ (no_tick calls = true ->
      history_in_sync st ->
      history_in_sync (run_calls calls st)
      /\ BitVM.load_history (run_calls calls st)
         = (run_calls calls st, Ok (BitVM.history (run_calls calls st)))).
Proof.
  split.
  - revert st. induction calls as [|c calls IH]; intros st; [reflexivity|].
    cbn [run_calls fold_left].
    etransitivity; [apply (proj1 (run_call_history st c)) | apply IH].
  - intros Hnt Hsync.
    assert (Hs : history_in_sync (run_calls calls st)).
    { revert st Hsync. induction calls as [|c calls IH]; intros st Hsync; [exact Hsync|].
      unfold no_tick in Hnt, IH. cbn [forallb] in Hnt.
      apply andb_true_iff in Hnt as [Hc Hnt].
      cbn [run_calls fold_left]. apply (IH Hnt).
      apply (proj2 (run_call_history st c)); [apply negb_true_iff; exact Hc | exact Hsync]. }
    split; [exact Hs|]. unfold BitVM.load_history.
    unfold history_in_sync in Hs. rewrite Hs. reflexivity.
Qed.

Lemma X16_history_append_only_witness :
  history_in_sync
    (run_calls [(pinning_env, CallFetch "QmAny"%string);
                (pinning_env, CallStore broken_block)] empty_store)
  /\ BitVM.hist_ipfs_hash
       <$> BitVM.history
             (run_calls [(pinning_env, CallFetch "QmAny"%string);
                         (pinning_env, CallStore broken_block)] empty_store)
     = ["Qmbatch-7"; "Qm"]%string.
Proof.
  split; [|vm_compute; reflexivity].
  apply (proj2 (X16_history_append_only
                  [(pinning_env, CallFetch "QmAny"%string);
                   (pinning_env, CallStore broken_block)] empty_store));
    reflexivity.
Defined.

(** ** The artifacts of [process_challenge] *)

Lemma scan_outputs_unbound (outputs : list string) :
  (Forall (fun script => startswith "OP_RETURN" script = false) outputs
   /\ BitVM.scan_outputs None outputs = Ok false)
  \/ (Exists (fun script => startswith "OP_RETURN" script = true) outputs
      /\ BitVM.scan_outputs None outputs = Raise (UnboundLocalError "commitment")).
Proof.
  induction outputs as [|script rest IH]; cbn [BitVM.scan_outputs].
  - left. split; [constructor | reflexivity].
  - destruct (startswith "OP_RETURN" script) eqn:Hp.
    + right. split; [left; exact Hp | reflexivity].
    + destruct IH as [[HF Hr] | [HE Hr]].
      * left. split; [constructor; assumption | exact Hr].
      * right. split; [right; exact HE | exact Hr].
Qed.

(** X17: the log file of a challenge is written exactly when signing,
    finalising, reading the final transaction, broadcasting and the lookup
    of the broadcast transaction all succeed and no output script of that
    transaction starts with [OP_RETURN]; it then records the transaction id
    and the hex commitment of the block. In every other case the body of
    the [try] raises and writes nothing. *)
Theorem X17_log_written_iff (env : BitVM.Env) (block : BitVM.Block) (key : string)
    (st : BitVM.Store) :
  (snd (BitVM.sign_and_broadcast env block key st) = Ok tt
   <-> exists tx_hex txid outputs,
         BitVM.hwi_signtx env key = Ok tt
         /\ BitVM.hwi_finalizetx env key = Ok tt
         /\ BitVM.read_final_tx env key = Ok tx_hex
         /\ BitVM.sendrawtransaction env tx_hex = Ok txid
         /\ BitVM.getrawtransaction env txid = Ok outputs
         /\ Forall (fun script => startswith "OP_RETURN" script = false) outputs)
  /\ (snd (BitVM.sign_and_broadcast env block key st) = Ok tt ->
      exists log tx_hex,
        BitVM.db (fst (BitVM.sign_and_broadcast env block key st)) !! (key +:+ "_log")
        = Some (BitVM.LogFile log)
        /\ BitVM.log_commitment log = hex (BitVM.commitment_of block)
        /\ BitVM.read_final_tx env key = Ok tx_hex
        /\ BitVM.sendrawtransaction env tx_hex = Ok (BitVM.log_txid log))
  /\ (snd (BitVM.sign_and_broadcast env block key st) <> Ok tt ->
      fst (BitVM.sign_and_broadcast env block key st) = st).
Proof.
  unfold BitVM.sign_and_broadcast, BitVM.mbind, BitVM.lift, BitVM.write_file.
  destruct (BitVM.hwi_signtx env key) as [[]|e1];
    [|split; [split; [discriminate | intros (? & ? & ? & H & _); discriminate H]
             | split; [discriminate | reflexivity]]].
  destruct (BitVM.hwi_finalizetx env key) as [[]|e2];
    [|split; [split; [discriminate | intros (? & ? & ? & _ & H & _); discriminate H]
             | split; [discriminate | reflexivity]]].
  destruct (BitVM.read_final_tx env key) as [tx_hex|e3];
    [|split; [split; [discriminate | intros (? & ? & ? & _ & _ & H & _); discriminate H]
             | split; [discriminate | reflexivity]]].
  destruct (BitVM.sendrawtransaction env tx_hex) as [txid|e4] eqn:Hsend;
    [|split; [split; [discriminate
                     | intros (t & ? & ? & _ & _ & Ht & H & _);
                       injection Ht as <-; congruence]
             | split; [discriminate | reflexivity]]].
  destruct (BitVM.getrawtransaction env txid) as [outputs|e5] eqn:Hget;
    [|split; [split; [discriminate
                     | intros (t & i & ? & _ & _ & Ht & Hi & H & _);
                       injection Ht as <-; rewrite Hsend in Hi; injection Hi as <-;
                       congruence]
             | split; [discriminate | reflexivity]]].
  destruct (scan_outputs_unbound outputs) as [[HF Hscan] | [HE Hscan]]; rewrite Hscan.
  - cbn [fst snd BitVM.db]. split; [|split].
    + split; [|reflexivity]. intros _. exists tx_hex, txid, outputs.
      repeat split; first [reflexivity | assumption].
    + intros _. eexists. exists tx_hex. split; [apply lookup_insert_eq|]. cbn.
      repeat split; first [reflexivity | assumption].
    + intros H. exfalso. apply H. reflexivity.
  - cbn [fst snd]. split; [|split; [discriminate | reflexivity]].
    split; [discriminate|].
    intros (t & i & o & _ & _ & Ht & Hi & Ho & HF).
    injection Ht as <-. rewrite Hsend in Hi. injection Hi as <-.
    rewrite Hget in Ho. injection Ho as <-.
    apply Exists_exists in HE as (script & Hin & Hs).
    rewrite Forall_forall in HF. rewrite (HF script Hin) in Hs. discriminate.
Qed.

Lemma X17_log_written_iff_witness :
  exists log,
    BitVM.db (fst (BitVM.sign_and_broadcast (online_env ["OP_DUP OP_HASH160"%string])
                     pinned_block "k" empty_store)) !! "k_log"%string
    = Some (BitVM.LogFile log)
    /\ BitVM.log_commitment log = hexdigest (encode "QmAQmB").
Proof.
  destruct (proj1 (proj2 (X17_log_written_iff (online_env ["OP_DUP OP_HASH160"%string])
                            pinned_block "k" empty_store)))
    as (log & tx_hex & Hlog & Hc & _); [reflexivity|].
  exists log. split; [exact Hlog | exact Hc].
Defined.

(** The commitment on the blocks of the scenarios: all the handles of
    [ipfs_hashes] joined, the single handle of [ipfs_hash], and the chain
    joined when there is no handle. *)
Example commitment_of_blocks :
  BitVM.commitment_of pinned_block = sha256 (encode "QmAQmB")
  /\ BitVM.commitment_of spliced_block = sha256 (encode "QmA; touch x")
  /\ BitVM.commitment_of broken_block = sha256 (encode "0011").
Proof. split; [|split]; reflexivity. Qed.

(** X18: the tree file lists one descriptor for each item of the chain, in
    order: descriptor [i] is named [step_i] and holds the script
    [OP_SHA256 <item i> OP_EQUAL] with leaf version [c0]; no two descriptors
    share a name. *)
Theorem X18_tree_descriptors (steps : list string) :
  List.length (BitVM.tapleaf_descriptors steps) = List.length steps
  /\ (forall i step,
        steps !! i = Some step ->
        BitVM.tapleaf_descriptors steps !! i
        = Some {| BitVM.name := "step_" +:+ pretty i;
                  BitVM.script := "OP_SHA256 " +:+ step +:+ " OP_EQUAL";
                  BitVM.tapleaf_version := "c0" |})
  /\ NoDup (BitVM.name <$> BitVM.tapleaf_descriptors steps).
Proof.
  split; [apply tapleaf_descriptors_length|]. split.
  - intros i step Hi. unfold BitVM.tapleaf_descriptors.
    rewrite list_lookup_imap, Hi. reflexivity.
  - apply NoDup_alt. intros i j x Hi Hj.
    rewrite list_lookup_fmap in Hi, Hj. unfold BitVM.tapleaf_descriptors in Hi, Hj.
    rewrite list_lookup_imap in Hi, Hj.
    destruct (steps !! i) as [si|]; [|discriminate].
    destruct (steps !! j) as [sj|]; [|discriminate].
    cbn in Hi, Hj. rewrite <- Hj in Hi. injection Hi as Hname.
    apply (String.app_inj "") in Hname.
    apply (inj pretty) in Hname. exact Hname.
Qed.

(** ** The listing of the store *)

(** X19: [list_blocks] returns the names of all scanned files, derived
    files included, rearranged in ascending order; the result does not
    depend on the order in which the directory scan returned them. *)
Theorem X19_list_blocks_sorted (files : list string) :
  Sorted String.le (BitVM.list_blocks files)
  /\ BitVM.list_blocks files ≡ₚ BitVM.file_name <$> files
  /\ (forall files', files' ≡ₚ files -> BitVM.list_blocks files' = BitVM.list_blocks files).
Proof.
  unfold BitVM.list_blocks. split; [apply Sorted_merge_sort; apply _|].
  split; [apply merge_sort_Permutation|].
  intros files' Hp. apply (Sorted_unique String.le).
  - apply Sorted_merge_sort; apply _.
  - apply Sorted_merge_sort; apply _.
  - rewrite !merge_sort_Permutation. rewrite Hp. reflexivity.
Qed.

Lemma X19_list_blocks_sorted_witness :
  BitVM.list_blocks ["b"; "a"]%string = BitVM.list_blocks ["a"; "b"]%string.
Proof.
  apply (proj2 (proj2 (X19_list_blocks_sorted ["a"; "b"]%string))).
  apply Permutation_swap.
Defined.

Lemma str_app_assoc (a b c : string) : (a +:+ b) +:+ c = a +:+ (b +:+ c).
Proof.
  induction a as [|x a IH]; [reflexivity|].
  change (String x ((a +:+ b) +:+ c) = String x (a +:+ (b +:+ c))). rewrite IH. reflexivity.
Qed.

Lemma str_mem_app (c : ascii) (a b : string) :
  str_mem c (a +:+ b) = str_mem c a || str_mem c b.
Proof.
  induction a as [|x a IH]; [reflexivity|].
  change (str_mem c (String x (a +:+ b)) = str_mem c (String x a) || str_mem c b).
  cbn [str_mem]. rewrite IH. apply orb_assoc.
Qed.

Lemma py_split_no_sep (sep : ascii) (s : string) :
  str_mem sep s = false -> py_split sep s = [s].
Proof.
  induction s as [|c s IH]; [reflexivity|].
  cbn [str_mem py_split]. intros H. apply orb_false_iff in H as [Hc Hs].
  rewrite Ascii.eqb_sym, Hc, (IH Hs). reflexivity.
Qed.

Lemma py_split_at (sep : ascii) (a b : string) :
  str_mem sep a = false ->
  py_split sep (a +:+ String sep b) = a :: py_split sep b.
Proof.
  induction a as [|c a IH].
  - intros _. change (py_split sep (String sep b) = "" :: py_split sep b)%string.
    cbn [py_split]. rewrite Ascii.eqb_refl. reflexivity.
  - cbn [str_mem]. intros H. apply orb_false_iff in H as [Hc Ha].
    change (py_split sep (String c (a +:+ String sep b)) = String c a :: py_split sep b).
    cbn [py_split]. rewrite Ascii.eqb_sym, Hc, (IH Ha). reflexivity.
Qed.

Lemma py_split_file_name (key : string) :
  py_split "_" (BitVM.file_name key)
  = "rollup"%string :: "block"%string :: py_split "_" (key +:+ ".json").
Proof.
  change (BitVM.file_name key)
    with ("rollup" +:+ String "_" ("block" +:+ String "_" (key +:+ ".json"))).
  rewrite py_split_at by reflexivity. rewrite py_split_at by reflexivity. reflexivity.
Qed.

Lemma listed_block_id_plain (key : string) :
  str_mem "_" key = false -> str_mem "." key = false ->
  BitVM.listed_block_id (BitVM.file_name key) = Ok key.
Proof.
  intros Hu Hd. unfold BitVM.listed_block_id. rewrite py_split_file_name.
  rewrite (py_split_no_sep "_" (key +:+ ".json"))
    by (rewrite str_mem_app, Hu; reflexivity).
  cbn [lookup list_lookup].
  change (key +:+ ".json") with (key +:+ String "." "json").
  rewrite py_split_at by exact Hd. reflexivity.
Qed.

Lemma listed_block_id_derived (key rest : string) :
  str_mem "_" key = false -> str_mem "." key = false ->
  BitVM.listed_block_id (BitVM.file_name (key +:+ String "_" rest)) = Ok key.
Proof.
  intros Hu Hd. unfold BitVM.listed_block_id. rewrite py_split_file_name.
  rewrite str_app_assoc.
  change (String "_" rest +:+ ".json") with (String "_" (rest +:+ ".json")).
  rewrite py_split_at by exact Hu. cbn [lookup list_lookup].
  rewrite (py_split_no_sep "." key Hd). reflexivity.
Qed.

Lemma str_mem_hex (c : ascii) (bs : list byte) :
  c = "_"%char \/ c = "."%char -> str_mem c (hex bs) = false.
Proof.
  intros Hc. induction bs as [|b bs IH]; [reflexivity|].
  cbn [hex]. rewrite str_mem_app, IH, orb_false_r.
  destruct Hc as [-> | ->]; destruct b; reflexivity.
Qed.

(** X20: the id that [auto_update_utxo_state] reads off a listed file name
    is the key of the file when the key holds neither [_] nor [.], as every
    content id does; off the name of a file derived from such a key
    ([_proof], [_tree], [_log]) it reads the key of the block again, so the
    block is loaded once more for each derived file. A key with an
    underscore is cut at it. *)
Theorem X20_listed_block_id (key : string) :
  str_mem "_" key = false ->
  str_mem "." key = false ->
  BitVM.listed_block_id (BitVM.file_name key) = Ok key
  /\ (forall key', key' ∈ derived_keys key ->
        BitVM.listed_block_id (BitVM.file_name key') = Ok key)
  /\ (forall rest, BitVM.listed_block_id (BitVM.file_name (key +:+ String "_" rest)) = Ok key).
Proof.
  intros Hu Hd. split; [apply listed_block_id_plain; assumption|]. split.
  - intros key' Hk. rewrite elem_of_derived_keys in Hk.
    destruct Hk as [-> | [-> | ->]]; apply (listed_block_id_derived key _ Hu Hd).
  - intros rest. apply listed_block_id_derived; assumption.
Qed.

Lemma X20_listed_block_id_witness :
  BitVM.listed_block_id (BitVM.file_name "00ff00ff00ff00ff") = Ok "00ff00ff00ff00ff"%string.
Proof.
  exact (proj1 (X20_listed_block_id "00ff00ff00ff00ff" eq_refl eq_refl)).
Defined.

(** X21: the name [list_blocks] gives the file of a block stored under its
    content id leads [auto_update_utxo_state] back to that id, and so to the
    block: listing, reading the id off the name and loading by it is a round
    trip for every block stored without an explicit id. *)
Theorem X21_stored_block_is_found_by_its_listed_name (env : BitVM.Env)
    (block : BitVM.Block) (st : BitVM.Store) :
  exists st' id,
    BitVM.store_rollup_block env block None st = (st', Ok id)
    /\ BitVM.listed_block_id (BitVM.file_name id) = Ok id
    /\ BitVM.load_block id st' = (st', Ok (BitVM.BlockFile block)).
Proof.
  destruct (store_rollup_block_spec env block None st) as (st' & Hrun & Hdb & _).
  cbn [str_or] in *. exists st', (BitVM.content_id env block).
  split; [exact Hrun|]. split.
  - rewrite content_id_hex. apply listed_block_id_plain; apply str_mem_hex; auto.
  - unfold BitVM.load_block, BitVM.read_file. rewrite Hdb, lookup_insert_eq. reflexivity.
Qed.

(** X26: in the order [step_chain] returns it, a chain of at least one
    step over a seed that is not 32 bytes long is always rejected by the
    chain check of the watcher: the check returns false, it does not raise. *)
Theorem X26_build_order_always_rejected (seed : list byte) (steps : Z) :
  1 <= steps ->
  List.length seed <> 32%nat ->
  BitVM.chain_verified (List.map hex (PSBTgen.step_chain seed steps)) = Ok false.
Proof. apply build_order_rejected. Qed.

Lemma X26_build_order_always_rejected_witness :
  BitVM.chain_verified (List.map hex (PSBTgen.step_chain (encode "init") 1)) = Ok false.
Proof.
  apply X26_build_order_always_rejected; [lia | cbn; lia].
Defined.

(** ** The spend of a challenge step *)







(** ** The text handed to the external generator *)

Lemma str_take_length (n : nat) (s : string) : (String.length (str_take n s) <= n)%nat.
Proof.
  revert s. induction n as [|n IH]; intros [|c s]; cbn; try lia.
  specialize (IH s). lia.
Qed.

Lemma str_take_startswith (n : nat) (s : string) : startswith (str_take n s) s = true.
Proof.
  revert s. induction n as [|n IH]; intros [|c s]; cbn; try reflexivity.
  rewrite Ascii.eqb_refl. apply IH.
Qed.

(** X24: the [--op_return] argument built for the external generator is at
    most 80 characters long and is a prefix of the first (at most four)
    handles of the block joined by single spaces; no handle among them is
    empty, and a block without handles gives the empty text. *)
Theorem X24_op_return_argument (block : BitVM.Block) :
  (String.length (BitVM.op_return_script block) <= 80)%nat
  /\ startswith (BitVM.op_return_script block)
       (join " " (firstn 4 (BitVM.block_handles block))) = true
  /\ Forall (fun h => h <> ""%string) (BitVM.block_handles block)
  /\ (BitVM.block_handles block = [] -> BitVM.op_return_script block = ""%string).
Proof.
  unfold BitVM.op_return_script.
  split; [apply str_take_length|]. split; [apply str_take_startswith|]. split.
  - unfold BitVM.block_handles. apply Forall_forall. intros h Hh.
    apply list_elem_of_omap in Hh as (o & _ & Ho).
    destruct o as [s|]; [|discriminate].
    destruct (String.eqb_spec s "") as [|Hne]; [discriminate|]. congruence.
  - intros ->. reflexivity.
Qed.




(** ** Edge amounts of the punishment transaction *)

Lemma py_int_nan (x : float) : Prim2SF x = S754_nan -> py_int x = Raise ValueError.
Proof. intros H. unfold py_int. rewrite H. reflexivity. Qed.

Lemma py_int_infinity (x : float) (s : bool) :
  Prim2SF x = S754_infinity s -> py_int x = Raise OverflowError.
Proof. intros H. unfold py_int. rewrite H. reflexivity. Qed.

Lemma py_int_zero (x : float) (s : bool) : Prim2SF x = S754_zero s -> py_int x = Ok 0.
Proof. intros H. unfold py_int. rewrite H. reflexivity. Qed.

(** X25: [create_punishment_psbt] converts the amount before it looks at
    the outpoint: a NaN amount raises [ValueError] and an infinite amount
    raises [OverflowError] whatever [txid] and [vout] are; a zero amount (of
    either sign) is not rejected and, given a well-formed outpoint, yields a
    transaction whose two outputs both carry 0. *)
Theorem X25_punishment_amount_edges (txid : string) (vout : Z) (amount : float) :
  (Prim2SF amount = S754_nan ->
   PSBTlib.create_punishment_psbt txid vout amount = Raise ValueError)
  /\ (forall s, Prim2SF amount = S754_infinity s ->
        PSBTlib.create_punishment_psbt txid vout amount = Raise OverflowError)
  /\ (forall s hash outpoint,
        Prim2SF amount = S754_zero s ->
        lx txid = Ok hash -> mkCOutPoint hash vout = Ok outpoint ->
        exists psbt,
          PSBTlib.create_punishment_psbt txid vout amount = Ok psbt
          /\ List.map PSBTlib.amount (PSBTlib.outputs psbt) = [0; 0]).
Proof.
  split; [|split].
  - intros H. unfold PSBTlib.create_punishment_psbt.
    rewrite (py_int_nan (amount * 1e8)%float); [reflexivity|].
    rewrite mul_spec, H. reflexivity.
  - intros s H. unfold PSBTlib.create_punishment_psbt.
    rewrite (py_int_infinity (amount * 1e8)%float s); [reflexivity|].
    rewrite mul_spec, H. destruct s; vm_compute; reflexivity.
  - intros s hash outpoint H Hlx Hop.
    assert (H1 : py_int (amount * 1e8)%float = Ok 0).
    { apply (py_int_zero _ s). rewrite mul_spec, H. destruct s; vm_compute; reflexivity. }
    assert (H2 : py_int (amount * 0.9 * 1e8)%float = Ok 0).
    { apply (py_int_zero _ s). rewrite !mul_spec, H. destruct s; vm_compute; reflexivity. }
    assert (H3 : py_int (amount * 0.1 * 1e8)%float = Ok 0).
    { apply (py_int_zero _ s). rewrite !mul_spec, H. destruct s; vm_compute; reflexivity. }
    destruct (punishment_psbt_built txid vout amount hash outpoint 0 0 0 Hlx Hop H1 H2 H3)
      as (psbt & Hrun & Hout & _).
    exists psbt. auto.
Qed.

Lemma X25_punishment_amount_edges_witness :
  PSBTlib.create_punishment_psbt "not hex" 0 nan = Raise ValueError
  /\ PSBTlib.create_punishment_psbt "not hex" 0 infinity = Raise OverflowError.
Proof.
  split.
  - apply (proj1 (X25_punishment_amount_edges "not hex" 0 nan)). reflexivity.
  - apply (proj1 (proj2 (X25_punishment_amount_edges "not hex" 0 infinity)) false).
    reflexivity.
Defined.
